(** * PixpCodecJS: the Pixp binary container, encoder and decoder

    A shallow embedding of [src/PixpEncoder.js] (classes [PixpEncoder] and
    [PixpDecoder]) and the properties of the container format it produces.

    Conventions of the embedding:
    - an [ArrayBuffer] is a list of bytes; typed arrays are views on one;
    - a JS string is a list of UTF-16 code units (integers);
    - JS values are finite trees; a cyclic object graph is a tree with a
      back edge ([JsBackRef]), on which [JSON.stringify] throws;
    - the methods of [PixpEncoder] run in a state-and-exception monad [M]
      over the encoder object ([this]) and the console;
    - typed arrays store their elements in platform byte order, taken to be
      little-endian (the only order found on the platforms that run this
      code). *)

From Stdlib Require Import ZArith List Bool String Ascii DecimalString DecimalPos Lia Permutation.
From Stdlib.Strings Require Import Byte.
Import ListNotations.
Open Scope Z_scope.
Set Warnings "-register-all".

(* ================================================================== *)
(** ** Bytes, buffers and JS strings *)

Definition ArrayBuffer := list byte.

Definition byteLength (b : ArrayBuffer) : Z := Z.of_nat (List.length b).

Definition byte_of_Z (z : Z) : byte :=
  match Byte.of_N (Z.to_N (z mod 256)) with
  | Some b => b
  | None => x00
  end.

Definition Z_of_byte (b : byte) : Z := Z.of_N (Byte.to_N b).

(** A JS string: its sequence of UTF-16 code units. *)
Definition JsString := list Z.

Definition js (s : string) : JsString :=
  map (fun b => Z_of_byte b) (list_byte_of_string s).

(** JSON texts are full of double quotes; [json_text] lets a fixture be
    written with apostrophes in their place. *)
Definition json_text (s : string) : JsString :=
  map (fun c => if c =? 39 then 34 else c) (js s).

Definition JsString_eqb (a b : JsString) : bool :=
  if list_eq_dec Z.eq_dec a b then true else false.

(** [new Uint32Array([n]).buffer]: the four bytes of [n] modulo 2^32. *)
Definition Uint32Array_buffer (n : Z) : ArrayBuffer :=
  let w := n mod 2 ^ 32 in
  [ byte_of_Z w; byte_of_Z (Z.shiftr w 8);
    byte_of_Z (Z.shiftr w 16); byte_of_Z (Z.shiftr w 24) ].

(** A [Uint16Array] is modelled by its elements; storing a number into it
    wraps modulo 2^16. *)
Definition Uint16Array := list Z.

Definition ToUint16 (z : Z) : Z := z mod 2 ^ 16.

(** [u.buffer] for a [Uint16Array] that owns its buffer. *)
Definition Uint16Array_to_buffer (u : Uint16Array) : ArrayBuffer :=
  flat_map (fun c => [byte_of_Z c; byte_of_Z (Z.shiftr c 8)]) u.

(* ================================================================== *)
(** ** JS values and [JSON.stringify] *)

Inductive JsError := TypeError | RangeError.

Inductive Completion (A : Type) :=
| Normal (a : A)
| Throw (e : JsError).
Arguments Normal {A} a.
Arguments Throw {A} e.

(** Values that can be handed to the encoder as metadata or as non-numeric
    data.  Numbers are the integers (printed in decimal); the properties of
    an object are listed in enumeration order.  [JsBackRef] is a property
    whose value is an object already being traversed: a cyclic reference. *)
Inductive JsValue :=
| JsUndefined
| JsNull
| JsBool (b : bool)
| JsInt (z : Z)
| JsStr (s : JsString)
| JsArr (elems : list JsValue)
| JsObj (props : list (JsString * JsValue))
| JsBackRef.

Definition ToBoolean (v : JsValue) : bool :=
  match v with
  | JsUndefined | JsNull => false
  | JsBool b => b
  | JsInt z => negb (z =? 0)
  | JsStr s => match s with [] => false | _ => true end
  | JsArr _ | JsObj _ | JsBackRef => true
  end.

Definition hex_digit (d : Z) : Z :=
  if d <? 10 then 48 + d else 97 + (d - 10).

(** The JSON escape of one code unit inside a string literal. *)
Definition quote_unit (c : Z) : JsString :=
  if c =? 34 then [92; 34]
  else if c =? 92 then [92; 92]
  else if c =? 8 then [92; 98]
  else if c =? 9 then [92; 116]
  else if c =? 10 then [92; 110]
  else if c =? 12 then [92; 102]
  else if c =? 13 then [92; 114]
  else if c <? 32 then
    [92; 117; 48; 48; hex_digit (c / 16); hex_digit (c mod 16)]
  else [c].

Definition quote (s : JsString) : JsString :=
  [34] ++ flat_map quote_unit s ++ [34].

Definition Number_toString (z : Z) : JsString :=
  js (NilZero.string_of_int (Z.to_int z)).

Fixpoint join_comma (parts : list JsString) : JsString :=
  match parts with
  | [] => []
  | [p] => p
  | p :: rest => p ++ [44] ++ join_comma rest
  end.

(** [JSON.stringify v]: [Normal (Some text)], [Normal None] when the result
    is [undefined], or [Throw TypeError] on a cyclic reference.  An
    [undefined] array element prints as [null]; an [undefined] property is
    left out.  Code units are taken in [0, 65536); the escaping of lone
    surrogates, which depends on the engine's edition, is not modelled. *)
Fixpoint JSON_stringify (v : JsValue) : Completion (option JsString) :=
  match v with
  | JsUndefined => Normal None
  | JsNull => Normal (Some (js "null"))
  | JsBool true => Normal (Some (js "true"))
  | JsBool false => Normal (Some (js "false"))
  | JsInt z => Normal (Some (Number_toString z))
  | JsStr s => Normal (Some (quote s))
  | JsArr elems =>
      let fix go (l : list JsValue) : Completion (list JsString) :=
        match l with
        | [] => Normal []
        | x :: rest =>
            match JSON_stringify x with
            | Throw e => Throw e
            | Normal o =>
                match go rest with
                | Throw e => Throw e
                | Normal parts =>
                    Normal (match o with Some t => t | None => js "null" end
                            :: parts)
                end
            end
        end in
      match go elems with
      | Throw e => Throw e
      | Normal parts => Normal (Some ([91] ++ join_comma parts ++ [93]))
      end
  | JsObj props =>
      let fix go (l : list (JsString * JsValue)) : Completion (list JsString) :=
        match l with
        | [] => Normal []
        | (k, x) :: rest =>
            match JSON_stringify x with
            | Throw e => Throw e
            | Normal o =>
                match go rest with
                | Throw e => Throw e
                | Normal parts =>
                    Normal (match o with
                            | Some t => (quote k ++ [58] ++ t) :: parts
                            | None => parts
                            end)
                end
            end
        end in
      match go props with
      | Throw e => Throw e
      | Normal parts => Normal (Some ([123] ++ join_comma parts ++ [125]))
      end
  | JsBackRef => Throw TypeError
  end.

Definition set_prop (o : list (JsString * JsValue)) (k : JsString) (v : JsValue)
  : list (JsString * JsValue) :=
  if existsb (fun p => JsString_eqb (fst p) k) o
  then map (fun p => if JsString_eqb (fst p) k then (k, v) else p) o
  else o ++ [(k, v)].

Definition get_prop (o : list (JsString * JsValue)) (k : JsString) : JsValue :=
  match find (fun p => JsString_eqb (fst p) k) o with
  | Some p => snd p
  | None => JsUndefined
  end.

(* ================================================================== *)
(** ** Typed arrays *)

(** The nine constructors tested by [_isTypedArray] and
    [_getTypedArraySpec]. *)
Inductive ElementKind :=
| Int8Array | Uint8Array | Uint8ClampedArray
| Int16Array | Uint16ArrayK
| Int32Array | Uint32Array
| Float32Array | Float64Array.

Definition ElementKind_eqb (a b : ElementKind) : bool :=
  match a, b with
  | Int8Array, Int8Array | Uint8Array, Uint8Array
  | Uint8ClampedArray, Uint8ClampedArray
  | Int16Array, Int16Array | Uint16ArrayK, Uint16ArrayK
  | Int32Array, Int32Array | Uint32Array, Uint32Array
  | Float32Array, Float32Array | Float64Array, Float64Array => true
  | _, _ => false
  end.

(** The platform constant [BYTES_PER_ELEMENT] of each constructor. *)
Definition BYTES_PER_ELEMENT (k : ElementKind) : Z :=
  match k with
  | Int8Array | Uint8Array | Uint8ClampedArray => 1
  | Int16Array | Uint16ArrayK => 2
  | Int32Array | Uint32Array | Float32Array => 4
  | Float64Array => 8
  end.

(** A typed array: its constructor, the [ArrayBuffer] it is a view on
    ([.buffer], the whole buffer), and the window of the view. *)
Record TypedArray := mkTypedArray {
  ta_kind : ElementKind;
  ta_buffer : ArrayBuffer;
  ta_byteOffset : Z;
  ta_length : Z
}.

(** [new K(elements)]: a fresh array that owns a buffer of exactly its
    elements' bytes. *)
Definition new_TypedArray (k : ElementKind) (bytes : ArrayBuffer) : TypedArray :=
  mkTypedArray k bytes 0 (byteLength bytes / BYTES_PER_ELEMENT k).

(** What [addBlock] accepts as [data]: a typed array or any other value. *)
Inductive JsData :=
| DTyped (arr : TypedArray)
| DValue (v : JsValue).

Definition instanceof (obj : JsData) (k : ElementKind) : bool :=
  match obj with
  | DTyped arr => ElementKind_eqb (ta_kind arr) k
  | DValue _ => false
  end.

Definition ToBoolean_data (obj : JsData) : bool :=
  match obj with
  | DTyped _ => true
  | DValue v => ToBoolean v
  end.

Definition _isTypedArray (obj : JsData) : bool :=
  if negb (ToBoolean_data obj) then false
  else
    instanceof obj Int8Array ||
    instanceof obj Uint8Array ||
    instanceof obj Uint8ClampedArray ||
    instanceof obj Int16Array ||
    instanceof obj Uint16ArrayK ||
    instanceof obj Int32Array ||
    instanceof obj Uint32Array ||
    instanceof obj Float32Array ||
    instanceof obj Float64Array.

Record TypedArraySpec := mkSpec {
  bytesPerElement : JsValue;
  dataType : JsValue;
  signed : JsValue
}.

Definition prop_BYTES_PER_ELEMENT (arr : JsData) : JsValue :=
  match arr with
  | DTyped a => JsInt (BYTES_PER_ELEMENT (ta_kind a))
  | DValue _ => JsUndefined
  end.

Definition _getTypedArraySpec (arr : JsData) : TypedArraySpec :=
  let spec := mkSpec (prop_BYTES_PER_ELEMENT arr) JsNull JsNull in
  if instanceof arr Int8Array then
    mkSpec (bytesPerElement spec) (JsStr (js "int")) (JsBool false)
  else if instanceof arr Uint8Array then
    mkSpec (bytesPerElement spec) (JsStr (js "int")) (JsBool true)
  else if instanceof arr Uint8ClampedArray then
    mkSpec (bytesPerElement spec) (JsStr (js "int")) (JsBool true)
  else if instanceof arr Int16Array then
    mkSpec (bytesPerElement spec) (JsStr (js "int")) (JsBool false)
  else if instanceof arr Uint16ArrayK then
    mkSpec (bytesPerElement spec) (JsStr (js "int")) (JsBool true)
  else if instanceof arr Int32Array then
    mkSpec (bytesPerElement spec) (JsStr (js "int")) (JsBool false)
  else if instanceof arr Uint32Array then
    mkSpec (bytesPerElement spec) (JsStr (js "int")) (JsBool true)
  else if instanceof arr Float32Array then
    mkSpec (bytesPerElement spec) (JsStr (js "float")) (JsBool false)
  else if instanceof arr Float64Array then
    mkSpec (bytesPerElement spec) (JsStr (js "float")) (JsBool false)
  else spec.

(* ================================================================== *)
(** ** The encoder object, the console, and the monad of its methods *)

Record PixpEncoder := mkEncoder {
  _sidecarBuffers : list ArrayBuffer;
  _dataBuffers : list ArrayBuffer;
  _studyMetadata : JsValue
}.

(** [constructor()] *)
Definition new_PixpEncoder : PixpEncoder := mkEncoder [] [] (JsObj []).

Inductive ConsoleEntry :=
| warn_message (msg : string)
| warn_error (e : JsError)
| log_string (s : JsString).

Record World := mkWorld {
  this : PixpEncoder;
  console : list ConsoleEntry
}.

Definition M (A : Type) := World -> Completion A * World.

Definition ret {A} (a : A) : M A := fun w => (Normal a, w).

Definition bind {A B} (c : M A) (k : A -> M B) : M B :=
  fun w =>
    match c w with
    | (Normal a, w') => k a w'
    | (Throw e, w') => (Throw e, w')
    end.

Definition throw {A} (e : JsError) : M A := fun w => (Throw e, w).

Notation "x <- c ;; k" := (bind c (fun x => k))
  (at level 61, c at next level, right associativity).
Notation "c ;;; k" := (bind c (fun _ => k))
  (at level 61, right associativity).

Definition get_this : M PixpEncoder := fun w => (Normal (this w), w).

Definition console_warn (entry : ConsoleEntry) : M unit :=
  fun w => (Normal tt, mkWorld (this w) (console w ++ [entry])).

Definition push_sidecarBuffers (b : ArrayBuffer) : M unit :=
  fun w =>
    let t := this w in
    (Normal tt,
     mkWorld (mkEncoder (_sidecarBuffers t ++ [b]) (_dataBuffers t)
                        (_studyMetadata t))
             (console w)).

Definition push_dataBuffers (b : ArrayBuffer) : M unit :=
  fun w =>
    let t := this w in
    (Normal tt,
     mkWorld (mkEncoder (_sidecarBuffers t) (_dataBuffers t ++ [b])
                        (_studyMetadata t))
             (console w)).

(** Reading [.buffer] off the result of [_objectToUnicodeBuffer]: a
    [TypeError] when that result is [null]. *)
Definition prop_buffer (u : option Uint16Array) : M ArrayBuffer :=
  match u with
  | Some a => ret (Uint16Array_to_buffer a)
  | None => throw TypeError
  end.

(* ================================================================== *)
(** ** [PixpEncoder]: the Unicode-JSON helpers *)

(** What [_toJsonString] can return: a string, [null] (the initial value,
    kept when [JSON.stringify] throws) or [undefined] (what
    [JSON.stringify] returns for a value with no JSON form). *)
Inductive JsonStr :=
| Str (s : JsString)
| StrNull
| StrUndefined.

Definition _toJsonString (obj : JsValue) : M JsonStr :=
  match JSON_stringify obj with
  | Normal (Some s) => ret (Str s)
  | Normal None => ret StrUndefined
  | Throw e => console_warn (warn_error e) ;;; ret StrNull
  end.

Definition _stringToUnicodeBuffer (str : JsonStr) : option Uint16Array :=
  match str with
  | StrNull | StrUndefined => None
  | Str [] => None
  | Str s => Some (map ToUint16 s)
  end.

Definition _objectToUnicodeBuffer (obj : JsValue) : M (option Uint16Array) :=
  jsonStr <- _toJsonString obj ;;
  ret (_stringToUnicodeBuffer jsonStr).

(* ================================================================== *)
(** ** [PixpEncoder.addBlock] and [setStudyMetadata] *)

(** [.buffer] of the [data] argument. *)
Definition data_buffer (data : JsData) : option ArrayBuffer :=
  match data with
  | DTyped arr => Some (ta_buffer arr)
  | DValue _ => None
  end.

(** The first half of [addBlock]: the [encoding] object without its
    [byteLength], and the data buffer.  [_isTypedArray] holds of typed
    arrays only, so the two arms that throw here are never taken: they
    stand for reading [.buffer] off a value that has none. *)
Definition addBlock_classify (data : JsData) (originalType : JsValue)
  : M (list (JsString * JsValue) * ArrayBuffer) :=
  let encoding := set_prop [] (js "originalType") originalType in
  if _isTypedArray data then
    let spec := _getTypedArraySpec data in
    let encoding := set_prop encoding (js "bytesPerElement") (bytesPerElement spec) in
    let encoding := set_prop encoding (js "dataType") (dataType spec) in
    let encoding := set_prop encoding (js "signed") (signed spec) in
    match data_buffer data with
    | Some dataBuffer => ret (encoding, dataBuffer)
    | None => throw TypeError
    end
  else
    match data with
    | DValue v =>
        u <- _objectToUnicodeBuffer v ;;
        dataBuffer <- prop_buffer u ;;
        let encoding := set_prop encoding (js "bytesPerElement") (JsInt 2) in
        let encoding := set_prop encoding (js "dataType") (JsStr (js "json")) in
        let encoding := set_prop encoding (js "signed") (JsBool false) in
        ret (encoding, dataBuffer)
    | DTyped _ => throw TypeError
    end.

(** The default value of the third parameter applies when the argument is
    [undefined]. *)
Definition default_null (originalType : JsValue) : JsValue :=
  match originalType with
  | JsUndefined => JsNull
  | v => v
  end.

Definition block_sidecar (encoding : list (JsString * JsValue))
  (metadata : JsValue) : JsValue :=
  JsObj [ (js "encodingMetadata", JsObj encoding);
          (js "originalMetadata", metadata) ].

Definition addBlock (data : JsData) (metadata : JsValue) (originalType : JsValue)
  : M unit :=
  let originalType := default_null originalType in
  r <- addBlock_classify data originalType ;;
  let '(encoding, dataBuffer) := r in
  let encoding := set_prop encoding (js "byteLength") (JsInt (byteLength dataBuffer)) in
  let sidecar := block_sidecar encoding metadata in
  u <- _objectToUnicodeBuffer sidecar ;;
  sidecarBuffer <- prop_buffer u ;;
  push_sidecarBuffers sidecarBuffer ;;;
  push_dataBuffers dataBuffer.

Definition setStudyMetadata (obj : JsValue) : M unit :=
  fun w =>
    let t := this w in
    (Normal tt,
     mkWorld (mkEncoder (_sidecarBuffers t) (_dataBuffers t) obj) (console w)).

(* ================================================================== *)
(** ** [PixpEncoder.blocksToBlob] *)

Record Blob := mkBlob {
  blob_bytes : list byte;
  blob_type : string
}.

(** [new Blob(parts, {type})]: the parts' bytes, one after the other. *)
Definition new_Blob (blobArray : list ArrayBuffer) (type : string) : Blob :=
  mkBlob (List.concat blobArray) type.

Definition lift {A} (c : Completion A) : M A := fun w => (c, w).

(** [new Uint16Array(buffer)]: a [RangeError] unless the byte length is a
    multiple of 2. *)
Fixpoint Uint16Array_of_buffer (b : ArrayBuffer) : Completion Uint16Array :=
  match b with
  | [] => Normal []
  | [_] => Throw RangeError
  | lo :: hi :: rest =>
      match Uint16Array_of_buffer rest with
      | Normal u => Normal (Z_of_byte lo + 256 * Z_of_byte hi :: u)
      | Throw e => Throw e
      end
  end.

(** [String.fromCharCode(...units)].  The limit an engine puts on the
    number of arguments of a call is not modelled. *)
Definition String_fromCharCode (units : list Z) : JsString := map ToUint16 units.

(** An [ArrayBuffer] is an object: it is truthy whatever it holds. *)
Definition ToBoolean_buffer (b : ArrayBuffer) : bool := true.

(** The first [for] loop: [n] iterations are left, [i] is the index. *)
Fixpoint blockStarts_loop (n i : nat) (t : PixpEncoder)
  (blockStarts : list Z) (bufferPosition : Z) : Completion (list Z * Z) :=
  match n with
  | O => Normal (blockStarts, bufferPosition)
  | S n' =>
      let blockStarts := blockStarts ++ [bufferPosition] in
      match nth_error (_sidecarBuffers t) i, nth_error (_dataBuffers t) i with
      | Some s, Some d =>
          let bufferPosition := bufferPosition + (byteLength s + byteLength d) in
          let bufferPosition := bufferPosition + 4 in
          blockStarts_loop n' (S i) t blockStarts bufferPosition
      | _, _ => Throw TypeError
      end
  end.

(** The second [for] loop, which fills [blobArray]. *)
Fixpoint blobArray_loop (n i : nat) (t : PixpEncoder)
  (blobArray : list ArrayBuffer) : Completion (list ArrayBuffer) :=
  match n with
  | O => Normal blobArray
  | S n' =>
      match nth_error (_sidecarBuffers t) i, nth_error (_dataBuffers t) i with
      | Some s, Some d =>
          let blobArray := blobArray ++ [Uint32Array_buffer (byteLength s)] in
          let blobArray := blobArray ++ [s] in
          let blobArray := blobArray ++ [d] in
          blobArray_loop n' (S i) t blobArray
      | _, _ => Throw TypeError
      end
  end.

Definition study_sidecar (blockStarts : list Z) (studyMetadata : JsValue) : JsValue :=
  JsObj [ (js "blockStarts", JsArr (map JsInt blockStarts));
          (js "studyMetadata", studyMetadata) ].

Definition count_mismatch_warning : ConsoleEntry :=
  warn_message "The blob cannot be made. The amount of metadata obejct differs from the amount of data object".

Definition cyclic_study_warning : ConsoleEntry :=
  warn_message "Study metadata may contain cyclic reference, cannot create blob.".

(** [blocksToBlob()]: [Some blob], or [None] for a [return] with no value. *)
Definition blocksToBlob : M (option Blob) :=
  t <- get_this ;;
  if negb (Nat.eqb (List.length (_sidecarBuffers t)) (List.length (_dataBuffers t)))
  then
    console_warn count_mismatch_warning ;;;
    ret None
  else
    r <- lift (blockStarts_loop (List.length (_dataBuffers t)) 0 t [] 0) ;;
    let '(blockStarts, bufferPosition) := r in
    let studySidecar := study_sidecar blockStarts (_studyMetadata t) in
    u <- _objectToUnicodeBuffer studySidecar ;;
    studySidecarBuffer <- prop_buffer u ;;
    units <- lift (Uint16Array_of_buffer studySidecarBuffer) ;;
    let str := String_fromCharCode units in
    if negb (ToBoolean_buffer studySidecarBuffer)
    then
      console_warn cyclic_study_warning ;;;
      ret None
    else
      let blobArray := [] in
      let blobArray := blobArray ++ [Uint32Array_buffer (byteLength studySidecarBuffer)] in
      let blobArray := blobArray ++ [studySidecarBuffer] in
      blobArray <- lift (blobArray_loop (List.length (_dataBuffers t)) 0 t blobArray) ;;
      let finalBlob := new_Blob blobArray "application/octet-binary" in
      ret (Some finalBlob).

(* ================================================================== *)
(** ** [PixpDecoder.blobToBlocks] *)

(** [ToIndex], on the values the decoder passes. *)
Definition ToIndex (v : JsValue) : Z :=
  match v with
  | JsBool true => 1
  | JsInt z => z
  | _ => 0
  end.

Record DataView := mkDataView {
  dv_buffer : ArrayBuffer;
  dv_byteOffset : Z;
  dv_byteLength : Z
}.

(** [new DataView(buffer, byteOffset)]: the second argument is the offset of
    the view in the buffer. *)
Definition new_DataView (buffer : ArrayBuffer) (byteOffset : JsValue)
  : Completion DataView :=
  let offset := ToIndex byteOffset in
  if byteLength buffer <? offset then Throw RangeError
  else Normal (mkDataView buffer offset (byteLength buffer - offset)).

Definition read_uint (littleEndian : bool) (raw : list byte) : Z :=
  fold_left (fun acc b => acc * 256 + Z_of_byte b)
            (if littleEndian then rev raw else raw) 0.

(** [view.getUint32(byteOffset, littleEndian)]; an omitted [littleEndian]
    is [undefined], hence big-endian. *)
Definition getUint32 (view : DataView) (byteOffset : Z) (littleEndian : JsValue)
  : Completion Z :=
  if dv_byteLength view <? byteOffset + 4 then Throw RangeError
  else
    let raw := firstn 4 (skipn (Z.to_nat (dv_byteOffset view + byteOffset))
                               (dv_buffer view)) in
    Normal (read_uint (ToBoolean littleEndian) raw).

(** [buffer.slice(begin, end)] for non-negative bounds, clamped to the
    buffer. *)
Definition ArrayBuffer_slice (buffer : ArrayBuffer) (begin_ end_ : Z) : ArrayBuffer :=
  let first := Z.min begin_ (byteLength buffer) in
  let final := Z.min end_ (byteLength buffer) in
  firstn (Z.to_nat (Z.max (final - first) 0)) (skipn (Z.to_nat first) buffer).

Definition onload_studySidecarLength (inputBuffer : ArrayBuffer) : Completion Z :=
  match new_DataView inputBuffer (JsBool true) with
  | Throw e => Throw e
  | Normal view => getUint32 view 0 JsUndefined
  end.

(** The [onload] handler: what it logs, or the exception it dies with. *)
Definition onload (inputBuffer : ArrayBuffer) : Completion JsString :=
  match onload_studySidecarLength inputBuffer with
  | Throw e => Throw e
  | Normal studySidecarLength =>
      match Uint16Array_of_buffer
              (ArrayBuffer_slice inputBuffer 4 (4 + studySidecarLength)) with
      | Throw e => Throw e
      | Normal studySidecarBuffer =>
          let studySidecar := String_fromCharCode studySidecarBuffer in
          Normal studySidecar
      end
  end.

(** One call of [blobToBlocks]: the value it returns, how the [onload]
    handler ends once the blob is read, and the console afterwards. *)
Record DecodeRun := mkDecodeRun {
  returned : JsValue;
  handler : Completion unit;
  logged : list ConsoleEntry
}.

Definition blobToBlocks (blob : Blob) : DecodeRun :=
  match onload (blob_bytes blob) with
  | Normal studySidecar => mkDecodeRun JsUndefined (Normal tt) [log_string studySidecar]
  | Throw e => mkDecodeRun JsUndefined (Throw e) []
  end.

(* ================================================================== *)
(** ** Running a client of the encoder *)

Record AddCall := mkCall {
  call_data : JsData;
  call_metadata : JsValue;
  call_originalType : JsValue
}.

(** A straight-line client: the calls one after the other; the first
    exception ends the run. *)
Fixpoint addBlocks (calls : list AddCall) : M unit :=
  match calls with
  | [] => ret tt
  | c :: rest =>
      addBlock (call_data c) (call_metadata c) (call_originalType c) ;;;
      addBlocks rest
  end.

Definition fresh : World := mkWorld new_PixpEncoder [].

(** [build]: the encoder fed with [calls] and [studyMetadata], then
    [blocksToBlob]. *)
Definition build (calls : list AddCall) (studyMetadata : JsValue) : M (option Blob) :=
  addBlocks calls ;;;
  setStudyMetadata studyMetadata ;;;
  blocksToBlob.

(* ================================================================== *)
(** ** The container format, in the words of its description

    The definitions of this section restate the format: they are what the
    encoder is compared with. *)

(** Unicode-JSON encoding of a value: its JSON text, each code unit as two
    bytes, low byte first; nothing when the value has no JSON text. *)
Definition UnicodeJSON_encode (v : JsValue) : option ArrayBuffer :=
  match JSON_stringify v with
  | Normal (Some text) =>
      Some (flat_map (fun c => [byte_of_Z (c mod 256); byte_of_Z (c / 256 mod 256)]) text)
  | _ => None
  end.

(** The raw data of a block: the buffer of a numeric array as it is, the
    Unicode-JSON encoding of anything else. *)
Definition RawData (data : JsData) : option ArrayBuffer :=
  match data with
  | DTyped arr => Some (ta_buffer arr)
  | DValue v => UnicodeJSON_encode v
  end.

(** The classification [(dataType, bytesPerElement, signed)] of a block. *)
Definition classification (data : JsData) : JsValue * JsValue * JsValue :=
  match data with
  | DTyped _ =>
      let spec := _getTypedArraySpec data in
      (dataType spec, bytesPerElement spec, signed spec)
  | DValue _ => (JsStr (js "json"), JsInt 2, JsBool false)
  end.

Definition EncodingDescriptor (data : JsData) (originalType : JsValue)
  (raw : ArrayBuffer) : list (JsString * JsValue) :=
  let '(dt, bpe, sg) := classification data in
  [ (js "originalType", default_null originalType);
    (js "bytesPerElement", bpe);
    (js "dataType", dt);
    (js "signed", sg);
    (js "byteLength", JsInt (byteLength raw)) ].

(** A block as the format stores it: its serialized sidecar and its raw
    data. *)
Definition encoded_block (c : AddCall) : option (ArrayBuffer * ArrayBuffer) :=
  match RawData (call_data c) with
  | None => None
  | Some raw =>
      match UnicodeJSON_encode
              (block_sidecar
                 (EncodingDescriptor (call_data c) (call_originalType c) raw)
                 (call_metadata c)) with
      | None => None
      | Some sidecar => Some (sidecar, raw)
      end
  end.

Fixpoint encoded_blocks (calls : list AddCall) : option (list (ArrayBuffer * ArrayBuffer)) :=
  match calls with
  | [] => Some []
  | c :: rest =>
      match encoded_block c, encoded_blocks rest with
      | Some b, Some bs => Some (b :: bs)
      | _, _ => None
      end
  end.

(** The bytes a block occupies: a 4-byte length, the sidecar, the data. *)
Definition block_frame (b : ArrayBuffer * ArrayBuffer) : list byte :=
  Uint32Array_buffer (byteLength (fst b)) ++ fst b ++ snd b.

(** The same bytes as the three parts [blocksToBlob] hands to [Blob]. *)
Definition block_parts (b : ArrayBuffer * ArrayBuffer) : list ArrayBuffer :=
  [Uint32Array_buffer (byteLength (fst b)); fst b; snd b].

Definition block_size (b : ArrayBuffer * ArrayBuffer) : Z :=
  4 + byteLength (fst b) + byteLength (snd b).

Definition sum_sizes (blocks : list (ArrayBuffer * ArrayBuffer)) : Z :=
  fold_right Z.add 0 (map block_size blocks).

(** The offset table: entry [i] is the size of the blocks before block [i]. *)
Fixpoint offsets_from (pos : Z) (blocks : list (ArrayBuffer * ArrayBuffer)) : list Z :=
  match blocks with
  | [] => []
  | b :: rest => pos :: offsets_from (pos + block_size b) rest
  end.

(** The value a complete decoder returns for a study: its metadata and
    its blocks. *)
Definition decoded_study (studyMetadata : JsValue) (blocks : list JsValue) : JsValue :=
  JsObj [ (js "studyMetadata", studyMetadata); (js "blocks", JsArr blocks) ].

(** The blocks an encoder holds, in the order they were added. *)
Definition blocks_of (t : PixpEncoder) : list (ArrayBuffer * ArrayBuffer) :=
  combine (_sidecarBuffers t) (_dataBuffers t).

(** The study sidecar payload of an encoder's blob. *)
Definition study_payload (t : PixpEncoder) : option ArrayBuffer :=
  UnicodeJSON_encode
    (study_sidecar (offsets_from 0 (blocks_of t)) (_studyMetadata t)).

(** The byte layout of a blob: study-sidecar length, study-sidecar payload,
    then each block's frame. *)
Definition blob_layout (study : ArrayBuffer)
  (blocks : list (ArrayBuffer * ArrayBuffer)) : list byte :=
  Uint32Array_buffer (byteLength study) ++ study ++ flat_map block_frame blocks.

(* ================================================================== *)
(** ** Fixtures *)

(** The bytes of the 32-bit floats 1.0, 2.0, 3.0. *)
Definition f32_1_2_3 : ArrayBuffer :=
  [ x00; x00; x80; x3f;  x00; x00; x00; x40;  x00; x00; x40; x40 ].

Definition image2D_call : AddCall :=
  mkCall (DTyped (new_TypedArray Float32Array f32_1_2_3))
         (JsObj [ (js "unit", JsStr (js "mm")) ])
         (JsStr (js "Image2D")).

(** [a = {}; a.self = a] *)
Definition cyclic_object : JsValue := JsObj [ (js "self", JsBackRef) ].

(** An encoder whose two lists were tampered with: one sidecar, no data. *)
Definition mismatched_encoder : PixpEncoder :=
  mkEncoder [ [x7b; x00; x7d; x00] ] [] (JsObj []).

(** The encoding descriptor of the [image2D_call] scenario, as the format's
    description writes it. *)
Definition image2D_descriptor : list (JsString * JsValue) :=
  [ (js "originalType", JsStr (js "Image2D"));
    (js "dataType", JsStr (js "float"));
    (js "bytesPerElement", JsInt 4);
    (js "signed", JsBool false);
    (js "byteLength", JsInt 12) ].

Definition image2D_sidecar_text : JsString :=
  json_text "{'encodingMetadata':{'originalType':'Image2D','bytesPerElement':4,'dataType':'float','signed':false,'byteLength':12},'originalMetadata':{'unit':'mm'}}".

Definition image2D_study_text : JsString :=
  json_text "{'blockStarts':[0],'studyMetadata':{}}".

(** The blob of the [image2D_call] scenario with the default study
    metadata. *)
Definition image2D_blob : Blob :=
  mkBlob (blob_layout (Uint16Array_to_buffer image2D_study_text)
            [(Uint16Array_to_buffer image2D_sidecar_text, f32_1_2_3)])
         "application/octet-binary".

(** The blob of a study with no block and the default study metadata: a
    study sidecar of 37 code units, 74 bytes. *)
Definition empty_study_blob : Blob :=
  mkBlob (blob_layout
            (Uint16Array_to_buffer (json_text "{'blockStarts':[],'studyMetadata':{}}"))
            [])
         "application/octet-binary".

(** What a round trip asks of one run of the decoder: that it hands back
    the study metadata with one decoded block per block added. *)
Definition reproduces (run : DecodeRun) (studyMetadata : JsValue)
  (calls : list AddCall) : Prop :=
  exists blocks,
    List.length blocks = List.length calls /\
    returned run = decoded_study studyMetadata blocks.

(* ================================================================== *)
(** ** A client that catches *)

(** The two methods that change an encoder. *)
Inductive Op :=
| OpAddBlock (c : AddCall)
| OpSetStudyMetadata (obj : JsValue).

Definition run_op (op : Op) : M unit :=
  match op with
  | OpAddBlock c => addBlock (call_data c) (call_metadata c) (call_originalType c)
  | OpSetStudyMetadata obj => setStudyMetadata obj
  end.

(** [try { op } catch (e) {}] *)
Definition try_op (op : Op) : M unit :=
  fun w => (Normal tt, snd (run_op op w)).

(** Any use of an encoder through its methods, exceptions caught. *)
Fixpoint run_ops (ops : list Op) : M unit :=
  match ops with
  | [] => ret tt
  | op :: rest => try_op op ;;; run_ops rest
  end.

(** [JSON.stringify v] throws. *)
Definition stringify_throws (v : JsValue) : Prop :=
  exists e, JSON_stringify v = Throw e.


(* ================================================================== *)
(** ** Basic facts *)

Lemma _isTypedArray_typed (arr : TypedArray) : _isTypedArray (DTyped arr) = true.
Proof.
  unfold _isTypedArray, instanceof; simpl.
  destruct (ta_kind arr); reflexivity.
Qed.

Lemma _isTypedArray_value (v : JsValue) : _isTypedArray (DValue v) = false.
Proof.
  unfold _isTypedArray, instanceof; simpl.
  destruct (ToBoolean v); reflexivity.
Qed.

Lemma js_nonempty_cons (a : ascii) (s : string) : js (String a s) <> [].
Proof. unfold js; simpl; discriminate. Qed.

Lemma Number_toString_nonempty (z : Z) : Number_toString z <> [].
Proof.
  unfold Number_toString.
  destruct z as [|p|p]; simpl.
  - discriminate.
  - pose proof (DecimalPos.Unsigned.to_uint_nonnil p) as H.
    unfold NilZero.string_of_uint.
    destruct (Pos.to_uint p); try (apply js_nonempty_cons); congruence.
  - apply js_nonempty_cons.
Qed.

Lemma JSON_stringify_nonempty (v : JsValue) (s : JsString) :
  JSON_stringify v = Normal (Some s) -> s <> [].
Proof.
  destruct v as [ | | b | z | t | elems | props | ]; simpl;
    try discriminate.
  - intros H; inversion H; discriminate.
  - destruct b; intros H; inversion H; discriminate.
  - intros H; inversion H; apply Number_toString_nonempty.
  - intros H; inversion H; discriminate.
  - match goal with |- context [match ?g elems with _ => _ end] =>
      destruct (g elems) end; intros H; inversion H; discriminate.
  - match goal with |- context [match ?g props with _ => _ end] =>
      destruct (g props) end; intros H; inversion H; discriminate.
Qed.

Lemma byte_of_Z_mod (a b : Z) : a mod 256 = b mod 256 -> byte_of_Z a = byte_of_Z b.
Proof. unfold byte_of_Z; intros ->; reflexivity. Qed.

Lemma code_unit_bytes (c : Z) :
  [byte_of_Z (ToUint16 c); byte_of_Z (Z.shiftr (ToUint16 c) 8)] =
  [byte_of_Z (c mod 256); byte_of_Z (c / 256 mod 256)].
Proof.
  unfold ToUint16.
  assert (E : c mod 2 ^ 16 = c mod 256 + 256 * (c / 256 mod 256))
    by (change (2 ^ 16) with (256 * 256); apply Z.rem_mul_r; lia).
  f_equal; [| f_equal]; apply byte_of_Z_mod.
  - rewrite E, Z.mul_comm, Z_mod_plus_full.
    reflexivity.
  - rewrite Z.shiftr_div_pow2 by lia.
    change (2 ^ 8) with 256.
    rewrite E, Z.mul_comm, Z_div_plus_full by lia.
    rewrite (Z.div_small (c mod 256)) by (apply Z.mod_pos_bound; lia).
    reflexivity.
Qed.

Lemma Uint16Array_to_buffer_text (text : JsString) :
  Uint16Array_to_buffer (map ToUint16 text) =
  flat_map (fun c => [byte_of_Z (c mod 256); byte_of_Z (c / 256 mod 256)]) text.
Proof.
  unfold Uint16Array_to_buffer.
  induction text as [|c rest IH]; simpl; [reflexivity|].
  rewrite IH.
  pose proof (code_unit_bytes c) as E; inversion E; reflexivity.
Qed.

Lemma _objectToUnicodeBuffer_some (v : JsValue) (b : ArrayBuffer) (w : World) :
  UnicodeJSON_encode v = Some b ->
  exists u, _objectToUnicodeBuffer v w = (Normal (Some u), w) /\
            Uint16Array_to_buffer u = b.
Proof.
  unfold UnicodeJSON_encode, _objectToUnicodeBuffer, _toJsonString, bind.
  destruct (JSON_stringify v) as [[text|]|e] eqn:E; try discriminate.
  intros H; inversion H; subst; clear H.
  exists (map ToUint16 text); split.
  - unfold ret; simpl.
    destruct text; [exfalso; eapply JSON_stringify_nonempty; eauto | reflexivity].
  - apply Uint16Array_to_buffer_text.
Qed.

Lemma _objectToUnicodeBuffer_none (v : JsValue) (w : World) :
  UnicodeJSON_encode v = None ->
  exists w', _objectToUnicodeBuffer v w = (Normal None, w') /\ this w' = this w /\
             (console w' = console w \/
              exists e, console w' = console w ++ [warn_error e]).
Proof.
  unfold UnicodeJSON_encode, _objectToUnicodeBuffer, _toJsonString, bind.
  destruct (JSON_stringify v) as [[text|]|e] eqn:E; try discriminate; intros _.
  - exists w; repeat split; left; reflexivity.
  - eexists; repeat split; right; exists e; reflexivity.
Qed.

(** The five assignments to [encoding], in the order [addBlock] makes
    them. *)
Lemma encoding_props (ot bpe dt sg bl : JsValue) :
  set_prop
    (set_prop
       (set_prop
          (set_prop (set_prop [] (js "originalType") ot)
                    (js "bytesPerElement") bpe)
          (js "dataType") dt)
       (js "signed") sg)
    (js "byteLength") bl =
  [ (js "originalType", ot); (js "bytesPerElement", bpe);
    (js "dataType", dt); (js "signed", sg); (js "byteLength", bl) ].
Proof. reflexivity. Qed.

(** [addBlock] pushes the encoded block, sidecar and data, at the end of
    the two lists. *)
Lemma addBlock_ok (c : AddCall) (w : World) (s d : ArrayBuffer) :
  encoded_block c = Some (s, d) ->
  addBlock (call_data c) (call_metadata c) (call_originalType c) w =
  (Normal tt,
   mkWorld (mkEncoder (_sidecarBuffers (this w) ++ [s])
                      (_dataBuffers (this w) ++ [d])
                      (_studyMetadata (this w)))
           (console w)).
Proof.
  destruct c as [data md ot]; unfold encoded_block; simpl.
  destruct (RawData data) as [raw|] eqn:ER; [|discriminate].
  destruct (UnicodeJSON_encode _) as [sc|] eqn:ES; [|discriminate].
  intros H; inversion H; subst; clear H.
  unfold EncodingDescriptor, classification in ES.
  unfold addBlock, addBlock_classify.
  destruct data as [arr|v].
  - rewrite _isTypedArray_typed.
    simpl in ER; inversion ER; subst; clear ER.
    destruct (_objectToUnicodeBuffer_some _ _ w ES) as (u & Hu & Hb).
    unfold bind at 1; cbn [data_buffer ret].
    rewrite encoding_props.
    unfold bind at 1; rewrite Hu.
    unfold bind, prop_buffer, ret, push_sidecarBuffers, push_dataBuffers; simpl.
    rewrite Hb; reflexivity.
  - rewrite _isTypedArray_value.
    simpl in ER.
    destruct (_objectToUnicodeBuffer_some _ _ w ER) as (u & Hu & Hb).
    unfold bind at 1. unfold bind at 1. unfold bind at 1.
    rewrite Hu; cbn [prop_buffer ret]. rewrite Hb.
    rewrite encoding_props.
    destruct (_objectToUnicodeBuffer_some _ _ w ES) as (u' & Hu' & Hb').
    unfold bind at 1; rewrite Hu'.
    unfold bind, prop_buffer, ret, push_sidecarBuffers, push_dataBuffers; simpl.
    rewrite Hb'; reflexivity.
Qed.

(** When either serialization fails, [addBlock] dies with a [TypeError]
    before it has pushed anything. *)
Lemma addBlock_fail (c : AddCall) (w : World) :
  encoded_block c = None ->
  exists w', addBlock (call_data c) (call_metadata c) (call_originalType c) w =
             (Throw TypeError, w') /\ this w' = this w.
Proof.
  destruct c as [data md ot]; unfold encoded_block; simpl.
  unfold addBlock, addBlock_classify.
  destruct data as [arr|v].
  - rewrite _isTypedArray_typed; simpl RawData; cbv iota.
    destruct (UnicodeJSON_encode _) as [sc|] eqn:ES; [intros H0; discriminate H0|]; intros _.
    unfold EncodingDescriptor, classification in ES.
    destruct (_objectToUnicodeBuffer_none _ w ES) as (w' & Hu & Hw & Hc).
    unfold bind at 1; cbn [data_buffer ret].
    rewrite encoding_props.
    unfold bind at 1; rewrite Hu.
    exists w'; split; [reflexivity | exact Hw].
  - rewrite _isTypedArray_value; simpl RawData.
    destruct (UnicodeJSON_encode v) as [raw|] eqn:ER.
    + destruct (UnicodeJSON_encode (block_sidecar _ _)) as [sc|] eqn:ES; [intros H0; discriminate H0|]; intros _.
      unfold EncodingDescriptor, classification in ES.
      destruct (_objectToUnicodeBuffer_some _ _ w ER) as (u & Hu & Hb).
      unfold bind at 1. unfold bind at 1. unfold bind at 1.
      rewrite Hu; cbn [prop_buffer ret]. rewrite Hb.
      rewrite encoding_props.
      destruct (_objectToUnicodeBuffer_none _ w ES) as (w' & Hu' & Hw & Hc).
      unfold bind at 1; rewrite Hu'.
      exists w'; split; [reflexivity | exact Hw].
    + intros _.
      destruct (_objectToUnicodeBuffer_none _ w ER) as (w' & Hu & Hw & Hc).
      unfold bind at 1. unfold bind at 1. unfold bind at 1.
      rewrite Hu.
      exists w'; split; [reflexivity | exact Hw].
Qed.

(* ------------------------------------------------------------------ *)
(** *** The two loops of [blocksToBlob] *)

Lemma nth_error_middle {A} (pre post : list A) (x : A) (n : nat) :
  List.length pre = n -> nth_error (pre ++ x :: post) n = Some x.
Proof.
  intros <-. rewrite nth_error_app2 by lia.
  rewrite Nat.sub_diag; reflexivity.
Qed.

Lemma sum_sizes_cons (b : ArrayBuffer * ArrayBuffer) (rest : list (ArrayBuffer * ArrayBuffer)) :
  sum_sizes (b :: rest) = block_size b + sum_sizes rest.
Proof. reflexivity. Qed.

Lemma block_size_pair (s d : ArrayBuffer) :
  block_size (s, d) = 4 + byteLength s + byteLength d.
Proof. reflexivity. Qed.

Lemma blockStarts_loop_spec (t : PixpEncoder) :
  forall (ds ss ps pd : list ArrayBuffer) (acc : list Z) (pos : Z),
    _sidecarBuffers t = ps ++ ss ->
    _dataBuffers t = pd ++ ds ->
    List.length ps = List.length pd ->
    List.length ss = List.length ds ->
    blockStarts_loop (List.length ds) (List.length pd) t acc pos =
    Normal (acc ++ offsets_from pos (combine ss ds),
            pos + sum_sizes (combine ss ds)).
Proof.
  induction ds as [|d ds IH]; intros ss ps pd acc pos Hs Hd Hp Hl.
  - destruct ss; [|discriminate]. simpl.
    rewrite app_nil_r, Z.add_0_r; reflexivity.
  - destruct ss as [|s ss]; [discriminate|].
    simpl blockStarts_loop.
    rewrite Hs, Hd.
    rewrite (nth_error_middle ps ss s) by exact Hp.
    rewrite (nth_error_middle pd ds d) by reflexivity.
    replace (S (List.length pd)) with (List.length (pd ++ [d]))
      by (rewrite length_app; simpl; lia).
    rewrite (IH ss (ps ++ [s]) (pd ++ [d])).
    + cbn [combine offsets_from].
      rewrite sum_sizes_cons, block_size_pair, <- app_assoc.
      cbn [app].
      replace (pos + (byteLength s + byteLength d) + 4)
        with (pos + (4 + byteLength s + byteLength d)) by lia.
      do 2 f_equal; lia.
    + rewrite Hs, <- app_assoc; reflexivity.
    + rewrite Hd, <- app_assoc; reflexivity.
    + rewrite !length_app; simpl; lia.
    + simpl in Hl; lia.
Qed.

Lemma blobArray_loop_spec (t : PixpEncoder) :
  forall (ds ss ps pd : list ArrayBuffer) (acc : list ArrayBuffer),
    _sidecarBuffers t = ps ++ ss ->
    _dataBuffers t = pd ++ ds ->
    List.length ps = List.length pd ->
    List.length ss = List.length ds ->
    blobArray_loop (List.length ds) (List.length pd) t acc =
    Normal (acc ++ flat_map block_parts (combine ss ds)).
Proof.
  induction ds as [|d ds IH]; intros ss ps pd acc Hs Hd Hp Hl.
  - destruct ss; [|discriminate]. simpl.
    rewrite app_nil_r; reflexivity.
  - destruct ss as [|s ss]; [discriminate|].
    simpl blobArray_loop.
    rewrite Hs, Hd.
    rewrite (nth_error_middle ps ss s) by exact Hp.
    rewrite (nth_error_middle pd ds d) by reflexivity.
    replace (S (List.length pd)) with (List.length (pd ++ [d]))
      by (rewrite length_app; simpl; lia).
    rewrite (IH ss (ps ++ [s]) (pd ++ [d])).
    + simpl combine; simpl flat_map.
      rewrite <- !app_assoc; reflexivity.
    + rewrite Hs, <- app_assoc; reflexivity.
    + rewrite Hd, <- app_assoc; reflexivity.
    + rewrite !length_app; simpl; lia.
    + simpl in Hl; lia.
Qed.

Lemma concat_block_parts (blocks : list (ArrayBuffer * ArrayBuffer)) :
  List.concat (flat_map block_parts blocks) = flat_map block_frame blocks.
Proof.
  induction blocks as [|b rest IH]; simpl; [reflexivity|].
  rewrite IH.
  unfold block_frame; rewrite <- !app_assoc; reflexivity.
Qed.

Lemma Uint16Array_of_to_buffer (u : Uint16Array) :
  exists units, Uint16Array_of_buffer (Uint16Array_to_buffer u) = Normal units.
Proof.
  induction u as [|c rest [units IH]].
  - exists []; reflexivity.
  - unfold Uint16Array_to_buffer in *.
    cbn [flat_map app Uint16Array_of_buffer].
    rewrite IH.
    eexists; reflexivity.
Qed.

Lemma blockStarts_loop_all (t : PixpEncoder) :
  List.length (_sidecarBuffers t) = List.length (_dataBuffers t) ->
  blockStarts_loop (List.length (_dataBuffers t)) 0 t [] 0 =
  Normal (offsets_from 0 (blocks_of t), sum_sizes (blocks_of t)).
Proof.
  intros H.
  exact (blockStarts_loop_spec t (_dataBuffers t) (_sidecarBuffers t)
           [] [] [] 0 eq_refl eq_refl eq_refl H).
Qed.

Lemma blobArray_loop_all (t : PixpEncoder) (acc : list ArrayBuffer) :
  List.length (_sidecarBuffers t) = List.length (_dataBuffers t) ->
  blobArray_loop (List.length (_dataBuffers t)) 0 t acc =
  Normal (acc ++ flat_map block_parts (blocks_of t)).
Proof.
  intros H.
  exact (blobArray_loop_spec t (_dataBuffers t) (_sidecarBuffers t)
           [] [] acc eq_refl eq_refl eq_refl H).
Qed.

(* ------------------------------------------------------------------ *)
(** *** [blocksToBlob], exit by exit *)

Lemma blocksToBlob_mismatch (w : World) :
  List.length (_sidecarBuffers (this w)) <> List.length (_dataBuffers (this w)) ->
  blocksToBlob w =
  (Normal None, mkWorld (this w) (console w ++ [count_mismatch_warning])).
Proof.
  intros H. unfold blocksToBlob, bind, get_this.
  apply Nat.eqb_neq in H; rewrite H; reflexivity.
Qed.

Lemma blocksToBlob_ok (w : World) (study : ArrayBuffer) :
  List.length (_sidecarBuffers (this w)) = List.length (_dataBuffers (this w)) ->
  study_payload (this w) = Some study ->
  blocksToBlob w =
  (Normal (Some (mkBlob (blob_layout study (blocks_of (this w)))
                        "application/octet-binary")), w).
Proof.
  intros H E. unfold blocksToBlob.
  unfold bind at 1, get_this.
  rewrite (proj2 (Nat.eqb_eq _ _) H); cbn [negb].
  unfold bind at 1, lift.
  rewrite (blockStarts_loop_all (this w) H).
  destruct (_objectToUnicodeBuffer_some _ _ w E) as (u & Hu & Hb).
  unfold bind at 1; rewrite Hu.
  unfold bind at 1; cbn [prop_buffer ret]; rewrite Hb.
  destruct (Uint16Array_of_to_buffer u) as [units Hunits].
  rewrite Hb in Hunits.
  unfold bind at 1; rewrite Hunits.
  cbn [ToBoolean_buffer negb].
  unfold bind at 1.
  rewrite (blobArray_loop_all (this w) _ H).
  unfold ret, new_Blob, blob_layout.
  rewrite concat_app, concat_block_parts; cbn [List.concat app].
  rewrite app_nil_r; reflexivity.
Qed.

Lemma blocksToBlob_fail (w : World) :
  List.length (_sidecarBuffers (this w)) = List.length (_dataBuffers (this w)) ->
  study_payload (this w) = None ->
  exists w', blocksToBlob w = (Throw TypeError, w') /\ this w' = this w /\
             (console w' = console w \/
              exists e, console w' = console w ++ [warn_error e]).
Proof.
  intros H E. unfold blocksToBlob.
  unfold bind at 1, get_this.
  rewrite (proj2 (Nat.eqb_eq _ _) H); cbn [negb].
  unfold bind at 1, lift.
  rewrite (blockStarts_loop_all (this w) H).
  destruct (_objectToUnicodeBuffer_none _ w E) as (w' & Hu & Hw & Hc).
  unfold bind at 1; rewrite Hu.
  exists w'; split; [reflexivity | split; [exact Hw | exact Hc]].
Qed.

(* ------------------------------------------------------------------ *)
(** *** The offset table *)

Lemma byteLength_nonneg (b : ArrayBuffer) : 0 <= byteLength b.
Proof. unfold byteLength; lia. Qed.

Lemma block_size_ge_4 (b : ArrayBuffer * ArrayBuffer) : 4 <= block_size b.
Proof.
  unfold block_size.
  pose proof (byteLength_nonneg (fst b)); pose proof (byteLength_nonneg (snd b)); lia.
Qed.

Lemma sum_sizes_nonneg (blocks : list (ArrayBuffer * ArrayBuffer)) :
  0 <= sum_sizes blocks.
Proof.
  induction blocks as [|b rest IH]; [unfold sum_sizes; simpl; lia|].
  rewrite sum_sizes_cons. pose proof (block_size_ge_4 b); lia.
Qed.

Lemma offsets_from_length (blocks : list (ArrayBuffer * ArrayBuffer)) :
  forall pos, List.length (offsets_from pos blocks) = List.length blocks.
Proof.
  induction blocks as [|b rest IH]; intros pos; simpl; [reflexivity|].
  rewrite IH; reflexivity.
Qed.

Lemma offsets_from_nth (blocks : list (ArrayBuffer * ArrayBuffer)) :
  forall (pos : Z) (i : nat),
    (i < List.length blocks)%nat ->
    nth_error (offsets_from pos blocks) i = Some (pos + sum_sizes (firstn i blocks)).
Proof.
  induction blocks as [|b rest IH]; intros pos i Hi; simpl in Hi; [lia|].
  destruct i as [|i].
  - simpl. unfold sum_sizes; simpl. rewrite Z.add_0_r; reflexivity.
  - cbn [offsets_from nth_error firstn].
    rewrite IH by lia.
    rewrite sum_sizes_cons. f_equal; lia.
Qed.

Lemma sum_sizes_firstn_lt (blocks : list (ArrayBuffer * ArrayBuffer)) :
  forall i j : nat,
    (i < j)%nat -> (j <= List.length blocks)%nat ->
    sum_sizes (firstn i blocks) < sum_sizes (firstn j blocks).
Proof.
  induction blocks as [|b rest IH]; intros i j Hij Hj; simpl in Hj; [lia|].
  destruct j as [|j]; [lia|].
  cbn [firstn]. rewrite sum_sizes_cons.
  pose proof (block_size_ge_4 b).
  destruct i as [|i].
  - cbn [firstn]. pose proof (sum_sizes_nonneg (firstn j rest)).
    unfold sum_sizes at 1; simpl. lia.
  - cbn [firstn]. rewrite sum_sizes_cons.
    specialize (IH i j). lia.
Qed.

Lemma blocks_of_length (t : PixpEncoder) :
  List.length (_sidecarBuffers t) = List.length (_dataBuffers t) ->
  List.length (blocks_of t) = List.length (_dataBuffers t).
Proof. intros H; unfold blocks_of; rewrite length_combine; lia. Qed.

(* ------------------------------------------------------------------ *)
(** *** A run of [addBlock] calls *)

Lemma combine_fst_snd {A B} (l : list (A * B)) :
  combine (map fst l) (map snd l) = l.
Proof.
  induction l as [|[a b] rest IH]; simpl; [reflexivity|].
  rewrite IH; reflexivity.
Qed.

Lemma addBlocks_ok (calls : list AddCall) :
  forall (blocks : list (ArrayBuffer * ArrayBuffer)) (w : World),
    encoded_blocks calls = Some blocks ->
    addBlocks calls w =
    (Normal tt,
     mkWorld (mkEncoder (_sidecarBuffers (this w) ++ map fst blocks)
                        (_dataBuffers (this w) ++ map snd blocks)
                        (_studyMetadata (this w)))
             (console w)).
Proof.
  induction calls as [|c rest IH]; intros blocks w H; simpl in H.
  - inversion H; subst; simpl. rewrite !app_nil_r.
    destruct w as [[ss ds md] co]; reflexivity.
  - destruct (encoded_block c) as [[s d]|] eqn:Ec; [|discriminate].
    destruct (encoded_blocks rest) as [bs|] eqn:Er; [|discriminate].
    inversion H; subst; clear H.
    cbn [addBlocks]. unfold bind.
    rewrite (addBlock_ok c w s d Ec).
    rewrite (IH bs _ eq_refl); simpl.
    rewrite <- !app_assoc; reflexivity.
Qed.

Lemma addBlocks_fail (calls : list AddCall) :
  forall w : World,
    encoded_blocks calls = None ->
    exists w', addBlocks calls w = (Throw TypeError, w').
Proof.
  induction calls as [|c rest IH]; intros w H; simpl in H; [discriminate|].
  cbn [addBlocks]. unfold bind.
  destruct (encoded_block c) as [[s d]|] eqn:Ec.
  - rewrite (addBlock_ok c w s d Ec).
    destruct (encoded_blocks rest) as [bs|] eqn:Er; [discriminate|].
    apply IH; reflexivity.
  - destruct (addBlock_fail c w Ec) as (w' & Hw & _).
    rewrite Hw. exists w'; reflexivity.
Qed.

Lemma build_unfold (calls : list AddCall) (md : JsValue) (w : World) :
  build calls md w =
  match addBlocks calls w with
  | (Normal _, w1) =>
      blocksToBlob (mkWorld (mkEncoder (_sidecarBuffers (this w1))
                                       (_dataBuffers (this w1)) md)
                            (console w1))
  | (Throw e, w1) => (Throw e, w1)
  end.
Proof.
  unfold build, bind, setStudyMetadata.
  destruct (addBlocks calls w) as [[u|e] w1]; reflexivity.
Qed.

(** [build], outcome by outcome. *)
Lemma build_ok (calls : list AddCall) (md : JsValue)
  (blocks : list (ArrayBuffer * ArrayBuffer)) (study : ArrayBuffer) :
  encoded_blocks calls = Some blocks ->
  UnicodeJSON_encode (study_sidecar (offsets_from 0 blocks) md) = Some study ->
  build calls md fresh =
  (Normal (Some (mkBlob (blob_layout study blocks) "application/octet-binary")),
   mkWorld (mkEncoder (map fst blocks) (map snd blocks) md) []).
Proof.
  intros Hb Hs.
  rewrite build_unfold, (addBlocks_ok calls blocks fresh Hb).
  cbn [this console fresh new_PixpEncoder _sidecarBuffers _dataBuffers app].
  set (w := mkWorld (mkEncoder (map fst blocks) (map snd blocks) md) []).
  assert (Hlen : List.length (_sidecarBuffers (this w)) =
                 List.length (_dataBuffers (this w)))
    by (simpl; rewrite !length_map; reflexivity).
  assert (Hblocks : blocks_of (this w) = blocks)
    by (unfold blocks_of; simpl; apply combine_fst_snd).
  rewrite (blocksToBlob_ok w study Hlen).
  - rewrite Hblocks; reflexivity.
  - unfold study_payload; rewrite Hblocks; exact Hs.
Qed.

Lemma build_inv (calls : list AddCall) (md : JsValue) (blob : Blob) (w : World) :
  build calls md fresh = (Normal (Some blob), w) ->
  exists blocks study,
    encoded_blocks calls = Some blocks /\
    UnicodeJSON_encode (study_sidecar (offsets_from 0 blocks) md) = Some study /\
    blob = mkBlob (blob_layout study blocks) "application/octet-binary".
Proof.
  intros H.
  destruct (encoded_blocks calls) as [blocks|] eqn:Hb.
  - destruct (UnicodeJSON_encode (study_sidecar (offsets_from 0 blocks) md))
      as [study|] eqn:Hs.
    + rewrite (build_ok calls md blocks study Hb Hs) in H.
      inversion H; subst. exists blocks, study; auto.
    + exfalso. revert H.
      rewrite build_unfold, (addBlocks_ok calls blocks fresh Hb).
      cbn [this console fresh new_PixpEncoder _sidecarBuffers _dataBuffers app].
      set (w0 := mkWorld (mkEncoder (map fst blocks) (map snd blocks) md) []).
      assert (Hlen : List.length (_sidecarBuffers (this w0)) =
                     List.length (_dataBuffers (this w0)))
        by (simpl; rewrite !length_map; reflexivity).
      assert (Hp : study_payload (this w0) = None).
      { unfold study_payload, blocks_of; simpl.
        rewrite combine_fst_snd; exact Hs. }
      destruct (blocksToBlob_fail w0 Hlen Hp) as (w' & Hw & _ & _).
      rewrite Hw; discriminate.
  - exfalso. revert H. rewrite build_unfold.
    destruct (addBlocks_fail calls fresh Hb) as (w' & Hw).
    rewrite Hw; discriminate.
Qed.

(* ================================================================== *)
(** ** The typed-data classifier *)

(** C4. The classifier is a function of the element kind alone, defined on
    each of the nine kinds: the signed integer kinds (8, 16, 32 bits) get
    [signed = false], the unsigned ones and the clamped 8-bit kind get
    [signed = true], and both float kinds get [dataType = "float"] with
    [signed = false]. *)
Theorem classifier_mapping (buffer : ArrayBuffer) (off len : Z) :
  let spec_of k := _getTypedArraySpec (DTyped (mkTypedArray k buffer off len)) in
  spec_of Int8Array = mkSpec (JsInt 1) (JsStr (js "int")) (JsBool false) /\
  spec_of Uint8Array = mkSpec (JsInt 1) (JsStr (js "int")) (JsBool true) /\
  spec_of Uint8ClampedArray = mkSpec (JsInt 1) (JsStr (js "int")) (JsBool true) /\
  spec_of Int16Array = mkSpec (JsInt 2) (JsStr (js "int")) (JsBool false) /\
  spec_of Uint16ArrayK = mkSpec (JsInt 2) (JsStr (js "int")) (JsBool true) /\
  spec_of Int32Array = mkSpec (JsInt 4) (JsStr (js "int")) (JsBool false) /\
  spec_of Uint32Array = mkSpec (JsInt 4) (JsStr (js "int")) (JsBool true) /\
  spec_of Float32Array = mkSpec (JsInt 4) (JsStr (js "float")) (JsBool false) /\
  spec_of Float64Array = mkSpec (JsInt 8) (JsStr (js "float")) (JsBool false).
Proof. repeat split. Qed.

(* ================================================================== *)
(** ** [addBlock] *)

(** C3. One block added from the three 32-bit floats 1.0, 2.0, 3.0 with
    metadata [{unit:"mm"}] and original type ["Image2D"]: the blob built
    next holds one block, whose sidecar is the JSON text of an object with
    [encodingMetadata] equal (as an object: the same properties) to
    [{originalType:"Image2D", dataType:"float", bytesPerElement:4,
    signed:false, byteLength:12}], followed by the 12 bytes. *)
Theorem image2D_scenario :
  let data := call_data image2D_call in
  let md := call_metadata image2D_call in
  let ot := call_originalType image2D_call in
  let sidecar := Uint16Array_to_buffer image2D_sidecar_text in
  let study := Uint16Array_to_buffer image2D_study_text in
  (addBlock data md ot ;;; blocksToBlob) fresh =
    (Normal (Some (mkBlob (blob_layout study [(sidecar, f32_1_2_3)])
                          "application/octet-binary")),
     mkWorld (mkEncoder [sidecar] [f32_1_2_3] (JsObj [])) []) /\
  UnicodeJSON_encode (block_sidecar (EncodingDescriptor data ot f32_1_2_3) md)
    = Some sidecar /\
  Permutation (EncodingDescriptor data ot f32_1_2_3) image2D_descriptor.
Proof.
  cbv zeta.
  split; [vm_compute; reflexivity|].
  split; [vm_compute; reflexivity|].
  unfold EncodingDescriptor, classification, image2D_descriptor; simpl.
  apply perm_skip, perm_swap.
Qed.

Lemma addBlock_outcome (data : JsData) (md ot : JsValue) (w : World) :
  match encoded_block (mkCall data md ot) with
  | Some (s, d) =>
      addBlock data md ot w =
      (Normal tt,
       mkWorld (mkEncoder (_sidecarBuffers (this w) ++ [s])
                          (_dataBuffers (this w) ++ [d])
                          (_studyMetadata (this w)))
               (console w))
  | None =>
      exists w', addBlock data md ot w = (Throw TypeError, w') /\ this w' = this w
  end.
Proof.
  destruct (encoded_block (mkCall data md ot)) as [[s d]|] eqn:E.
  - exact (addBlock_ok (mkCall data md ot) w s d E).
  - exact (addBlock_fail (mkCall data md ot) w E).
Qed.

(** C7. When [addBlock] accepts a block, the block's raw data is pushed
    with a sidecar that serializes its encoding descriptor, and the
    descriptor's [byteLength] is the byte length of that raw data.  For data
    that is not a typed array of the nine kinds, the descriptor says
    [dataType "json"], [bytesPerElement 2], [signed false], and the raw data
    is the Unicode-JSON encoding of the value. *)
Theorem addBlock_descriptor (data : JsData) (md ot : JsValue) (w w' : World) :
  addBlock data md ot w = (Normal tt, w') ->
  exists raw sidecar,
    let encoding := EncodingDescriptor data ot raw in
    RawData data = Some raw /\
    _dataBuffers (this w') = _dataBuffers (this w) ++ [raw] /\
    _sidecarBuffers (this w') = _sidecarBuffers (this w) ++ [sidecar] /\
    UnicodeJSON_encode (block_sidecar encoding md) = Some sidecar /\
    get_prop encoding (js "byteLength") = JsInt (byteLength raw) /\
    (forall v, data = DValue v ->
       UnicodeJSON_encode v = Some raw /\
       get_prop encoding (js "dataType") = JsStr (js "json") /\
       get_prop encoding (js "bytesPerElement") = JsInt 2 /\
       get_prop encoding (js "signed") = JsBool false).
Proof.
  intros H.
  pose proof (addBlock_outcome data md ot w) as O.
  destruct (encoded_block (mkCall data md ot)) as [[s d]|] eqn:E.
  - rewrite O in H; inversion H; subst; clear H O.
    unfold encoded_block in E; simpl in E.
    destruct (RawData data) as [raw|] eqn:ER; [|discriminate].
    destruct (UnicodeJSON_encode _) as [sc|] eqn:ES; [|discriminate].
    inversion E; subst; clear E.
    exists d, s. cbv zeta.
    repeat split; try reflexivity; try assumption;
      try (match goal with Hd : data = DValue _ |- _ => subst data end;
           solve [exact ER | reflexivity]).
    unfold EncodingDescriptor; destruct (classification data) as [[dt bpe] sg].
    reflexivity.
  - destruct O as (w0 & Hw & _). rewrite Hw in H; discriminate.
Qed.

Lemma addBlock_descriptor_witness :
  exists raw sidecar,
    RawData (DValue (JsStr (js "note"))) = Some raw /\
    UnicodeJSON_encode
      (block_sidecar (EncodingDescriptor (DValue (JsStr (js "note"))) JsUndefined raw)
                     JsNull) = Some sidecar /\
    get_prop (EncodingDescriptor (DValue (JsStr (js "note"))) JsUndefined raw)
             (js "dataType") = JsStr (js "json").
Proof.
  destruct (addBlock_descriptor (DValue (JsStr (js "note"))) JsNull JsUndefined fresh
              (snd (addBlock (DValue (JsStr (js "note"))) JsNull JsUndefined fresh)))
    as (raw & sidecar & Hr & _ & _ & Hs & _ & Hv).
  - vm_compute; reflexivity.
  - exists raw, sidecar.
    destruct (Hv _ eq_refl) as (_ & Hd & _).
    repeat split; assumption.
Defined.

(** C10. [addBlock] is all or nothing.  When the data or the sidecar has no
    JSON text, the call dies with a [TypeError]; whenever it dies the
    encoder is as it was before the call; and whatever the outcome, two
    lists of equal length are of equal length afterwards. *)
Theorem addBlock_atomic (data : JsData) (md ot : JsValue) (w : World) :
  (encoded_block (mkCall data md ot) = None ->
   exists w', addBlock data md ot w = (Throw TypeError, w')) /\
  (forall e w', addBlock data md ot w = (Throw e, w') -> this w' = this w) /\
  (forall c w', addBlock data md ot w = (c, w') ->
     List.length (_sidecarBuffers (this w)) = List.length (_dataBuffers (this w)) ->
     List.length (_sidecarBuffers (this w')) = List.length (_dataBuffers (this w'))).
Proof.
  pose proof (addBlock_outcome data md ot w) as O.
  destruct (encoded_block (mkCall data md ot)) as [[s d]|] eqn:E.
  - repeat split.
    + discriminate.
    + intros e w' H; rewrite O in H; discriminate.
    + intros c w' H L; rewrite O in H; inversion H; subst; simpl.
      rewrite !length_app; simpl; lia.
  - destruct O as (w0 & Hw & Ht). repeat split.
    + intros _; exists w0; exact Hw.
    + intros e w' H; rewrite Hw in H; inversion H; subst; exact Ht.
    + intros c w' H L; rewrite Hw in H; inversion H; subst.
      rewrite Ht; exact L.
Qed.

Lemma addBlock_atomic_witness :
  exists w',
    addBlock (DValue cyclic_object) JsNull JsNull fresh = (Throw TypeError, w') /\
    this w' = this fresh /\
    List.length (_sidecarBuffers (this w')) = List.length (_dataBuffers (this w')).
Proof.
  destruct (addBlock_atomic (DValue cyclic_object) JsNull JsNull fresh)
    as (H1 & H2 & H3).
  destruct (H1 eq_refl) as (w' & Hw).
  exists w'. split; [exact Hw|]. split.
  - exact (H2 _ _ Hw).
  - exact (H3 _ _ Hw eq_refl).
Defined.

(* ================================================================== *)
(** ** [blocksToBlob] *)

(** C5. On an encoder with as many sidecars as data buffers, the first
    loop of [blocksToBlob] ends with one offset per block; offset [i] is the
    sum of [4 + sidecar length + data length] over the blocks before block
    [i]; the first offset, when there is a block, is 0; the offsets are
    strictly increasing; and they are the [blockStarts] that the study
    sidecar serializes. *)
Theorem blockStarts_running_offsets (t : PixpEncoder) :
  List.length (_sidecarBuffers t) = List.length (_dataBuffers t) ->
  exists blockStarts total,
    blockStarts_loop (List.length (_dataBuffers t)) 0 t [] 0 =
      Normal (blockStarts, total) /\
    List.length blockStarts = List.length (_dataBuffers t) /\
    (forall i, (i < List.length (_dataBuffers t))%nat ->
       nth_error blockStarts i = Some (sum_sizes (firstn i (blocks_of t)))) /\
    (_dataBuffers t <> [] -> nth_error blockStarts 0 = Some 0) /\
    (forall i j a b, (i < j)%nat ->
       nth_error blockStarts i = Some a -> nth_error blockStarts j = Some b ->
       a < b) /\
    study_payload t =
      UnicodeJSON_encode (study_sidecar blockStarts (_studyMetadata t)).
Proof.
  intros H.
  pose proof (blocks_of_length t H) as L.
  assert (N : forall i, (i < List.length (_dataBuffers t))%nat ->
            nth_error (offsets_from 0 (blocks_of t)) i =
            Some (sum_sizes (firstn i (blocks_of t)))).
  { intros i Hi. rewrite offsets_from_nth by lia. reflexivity. }
  exists (offsets_from 0 (blocks_of t)), (sum_sizes (blocks_of t)).
  split; [apply blockStarts_loop_all; exact H|].
  split; [rewrite offsets_from_length; exact L|].
  split; [exact N|].
  split.
  - intros Hne. rewrite N; [reflexivity|].
    destruct (_dataBuffers t); [congruence | simpl; lia].
  - split; [|reflexivity].
    intros i j a b Hij Ha Hb.
    assert (Hj : (j < List.length (_dataBuffers t))%nat).
    { rewrite <- L, <- (offsets_from_length (blocks_of t) 0).
      apply nth_error_Some; congruence. }
    rewrite N in Ha, Hb by lia.
    inversion Ha; inversion Hb; subst.
    apply sum_sizes_firstn_lt; lia.
Qed.

Lemma blockStarts_running_offsets_witness :
  exists blockStarts total,
    blockStarts_loop 2 0
      (mkEncoder [[x7b; x00]; [x7d; x00; x7d; x00]] [[x01]; [x02; x03]] JsNull)
      [] 0 = Normal (blockStarts, total) /\
    nth_error blockStarts 1 = Some 7.
Proof.
  destruct (blockStarts_running_offsets
              (mkEncoder [[x7b; x00]; [x7d; x00; x7d; x00]] [[x01]; [x02; x03]] JsNull)
              eq_refl)
    as (bs & total & Hl & _ & Hn & _).
  exists bs, total. split; [exact Hl|].
  exact (Hn 1%nat (le_n 2)).
Defined.

(** C9. When the two lists differ in length, [blocksToBlob] warns and
    returns no blob, leaving the encoder untouched; when they have the same
    length it never returns without a blob. *)
Theorem blocksToBlob_count_guard (w : World) :
  (List.length (_sidecarBuffers (this w)) <> List.length (_dataBuffers (this w)) ->
   blocksToBlob w =
   (Normal None, mkWorld (this w) (console w ++ [count_mismatch_warning]))) /\
  (List.length (_sidecarBuffers (this w)) = List.length (_dataBuffers (this w)) ->
   fst (blocksToBlob w) <> Normal None /\
   ~ In count_mismatch_warning
        (skipn (List.length (console w)) (console (snd (blocksToBlob w))))).
Proof.
  split; [apply blocksToBlob_mismatch|].
  intros H.
  destruct (study_payload (this w)) as [study|] eqn:E.
  - rewrite (blocksToBlob_ok w study H E); simpl.
    split; [discriminate|].
    rewrite skipn_all; simpl; tauto.
  - destruct (blocksToBlob_fail w H E) as (w' & Hw & _ & Hc).
    rewrite Hw; simpl.
    split; [discriminate|].
    destruct Hc as [Hc | [e Hc]]; rewrite Hc.
    + rewrite skipn_all; simpl; tauto.
    + rewrite skipn_app, skipn_all, Nat.sub_diag; simpl.
      intros [F|F]; [discriminate F | exact F].
Qed.

Lemma blocksToBlob_count_guard_witness :
  blocksToBlob (mkWorld mismatched_encoder []) =
    (Normal None, mkWorld mismatched_encoder [count_mismatch_warning]) /\
  fst (blocksToBlob fresh) <> Normal None.
Proof.
  split.
  - apply (proj1 (blocksToBlob_count_guard (mkWorld mismatched_encoder []))).
    simpl; lia.
  - apply (proj2 (blocksToBlob_count_guard fresh)).
    reflexivity.
Defined.

Lemma blocksToBlob_inv (w w' : World) (blob : Blob) :
  blocksToBlob w = (Normal (Some blob), w') ->
  List.length (_sidecarBuffers (this w)) = List.length (_dataBuffers (this w)) /\
  exists study,
    study_payload (this w) = Some study /\
    blob = mkBlob (blob_layout study (blocks_of (this w))) "application/octet-binary".
Proof.
  intros H.
  destruct (Nat.eq_dec (List.length (_sidecarBuffers (this w)))
                       (List.length (_dataBuffers (this w)))) as [L|L].
  - split; [exact L|].
    destruct (study_payload (this w)) as [study|] eqn:E.
    + rewrite (blocksToBlob_ok w study L E) in H.
      inversion H; subst. exists study; auto.
    + destruct (blocksToBlob_fail w L E) as (w0 & Hw & _).
      rewrite Hw in H; discriminate.
  - rewrite (blocksToBlob_mismatch w L) in H; discriminate.
Qed.

(** C6. The blob of a successful [blocksToBlob] is, in this order: the four
    bytes of the study-sidecar length, the study-sidecar payload, then for
    each block, in the order of the encoder's lists (the order of the
    [addBlock] calls), the four bytes of its sidecar length, its sidecar
    and its raw data. *)
Theorem blob_is_concatenation (w w' : World) (blob : Blob) :
  blocksToBlob w = (Normal (Some blob), w') ->
  exists study,
    study_payload (this w) = Some study /\
    List.length (Uint32Array_buffer (byteLength study)) = 4%nat /\
    blob_bytes blob =
      Uint32Array_buffer (byteLength study) ++ study ++
      flat_map (fun b => Uint32Array_buffer (byteLength (fst b)) ++ fst b ++ snd b)
               (combine (_sidecarBuffers (this w)) (_dataBuffers (this w))).
Proof.
  intros H.
  destruct (blocksToBlob_inv w w' blob H) as (_ & study & E & B).
  exists study. split; [exact E|]. split; [reflexivity|].
  subst blob; reflexivity.
Qed.

Lemma blob_is_concatenation_witness :
  exists study,
    blob_bytes image2D_blob =
      Uint32Array_buffer (byteLength study) ++ study ++
      Uint32Array_buffer (byteLength (Uint16Array_to_buffer image2D_sidecar_text)) ++
      Uint16Array_to_buffer image2D_sidecar_text ++ f32_1_2_3 ++ [].
Proof.
  destruct (blob_is_concatenation
              (mkWorld (mkEncoder [Uint16Array_to_buffer image2D_sidecar_text]
                                  [f32_1_2_3] (JsObj [])) [])
              (mkWorld (mkEncoder [Uint16Array_to_buffer image2D_sidecar_text]
                                  [f32_1_2_3] (JsObj [])) [])
              image2D_blob)
    as (study & _ & _ & B).
  - vm_compute; reflexivity.
  - exists study. rewrite B. cbn [combine flat_map fst snd this _sidecarBuffers _dataBuffers].
    rewrite <- !app_assoc. reflexivity.
Defined.

(** C8, evaluated where it fails.  With study metadata [a = {}; a.self = a]
    the serialization of the study sidecar yields [null], and reading
    [.buffer] off it throws: [blocksToBlob] dies with a [TypeError] after
    [_toJsonString] has logged the error of [JSON.stringify]; the guard on
    [studySidecarBuffer] that warns and returns is not reached. *)
Theorem cyclic_study_metadata_throws :
  build [] cyclic_object fresh =
  (Throw TypeError,
   mkWorld (mkEncoder [] [] cyclic_object) [warn_error TypeError]).
Proof. vm_compute; reflexivity. Qed.

(* ================================================================== *)
(** ** [blobToBlocks] *)

Lemma onload_studySidecarLength_long (b0 b1 b2 b3 b4 : byte) (rest : list byte) :
  onload_studySidecarLength (b0 :: b1 :: b2 :: b3 :: b4 :: rest) =
  Normal (read_uint false [b1; b2; b3; b4]).
Proof.
  unfold onload_studySidecarLength, new_DataView, getUint32, byteLength.
  cbn [ToIndex List.length].
  destruct (Z.ltb_spec (Z.of_nat (S (S (S (S (S (List.length rest))))))) 1) as [F|_];
    [lia|].
  cbn [dv_byteLength dv_byteOffset dv_buffer].
  destruct (Z.ltb_spec (Z.of_nat (S (S (S (S (S (List.length rest)))))) - 1) (0 + 4))
    as [F|_]; [lia|].
  reflexivity.
Qed.

Lemma onload_studySidecarLength_short (inputBuffer : ArrayBuffer) :
  (List.length inputBuffer < 5)%nat ->
  onload_studySidecarLength inputBuffer = Throw RangeError.
Proof.
  intros H.
  do 5 (destruct inputBuffer as [|? inputBuffer]; [reflexivity|]).
  simpl in H; lia.
Qed.

(** C2, evaluated where it fails.  On the blob of an empty study, whose
    bytes [0,4) hold 74 in little-endian order, the decoder takes 123 for
    the study-sidecar length: it reads bytes [1,5) in big-endian order, for
    every blob of five bytes or more, and dies with a [RangeError] on any
    shorter blob, a blob of exactly four bytes included. *)
Theorem decoder_reads_bytes_1_to_5 :
  fst (build [] (JsObj []) fresh) = Normal (Some empty_study_blob) /\
  read_uint true (firstn 4 (blob_bytes empty_study_blob)) = 74 /\
  onload_studySidecarLength (blob_bytes empty_study_blob) = Normal 123 /\
  (forall b0 b1 b2 b3 b4 rest,
     onload_studySidecarLength (b0 :: b1 :: b2 :: b3 :: b4 :: rest) =
     Normal (read_uint false [b1; b2; b3; b4])) /\
  onload_studySidecarLength [x4a; x00; x00; x00] = Throw RangeError.
Proof.
  split; [vm_compute; reflexivity|].
  split; [vm_compute; reflexivity|].
  split; [vm_compute; reflexivity|].
  split; [exact onload_studySidecarLength_long|].
  reflexivity.
Qed.

Lemma blobToBlocks_returns_undefined (blob : Blob) :
  returned (blobToBlocks blob) = JsUndefined.
Proof. unfold blobToBlocks; destruct (onload (blob_bytes blob)); reflexivity. Qed.

(** C1, refuted as stated.  On the blob built from the one-block scenario
    the decoder returns [undefined], logs nothing and its handler dies: it
    does not reproduce the study. *)
Lemma roundtrip_counterexample :
  build [image2D_call] (JsObj []) fresh =
    (Normal (Some image2D_blob),
     mkWorld (mkEncoder [Uint16Array_to_buffer image2D_sidecar_text]
                        [f32_1_2_3] (JsObj [])) []) /\
  blobToBlocks image2D_blob = mkDecodeRun JsUndefined (Throw RangeError) [] /\
  ~ reproduces (blobToBlocks image2D_blob) (JsObj []) [image2D_call].
Proof.
  split; [vm_compute; reflexivity|].
  split; [vm_compute; reflexivity|].
  intros (blocks & _ & H).
  rewrite blobToBlocks_returns_undefined in H; discriminate.
Qed.

(* ------------------------------------------------------------------ *)
(** *** What the blob carries *)

Lemma skipn_length_app {A} (l1 l2 : list A) :
  skipn (List.length l1) (l1 ++ l2) = l2.
Proof. induction l1; simpl; auto. Qed.

Lemma firstn_length_app {A} (l1 l2 : list A) :
  firstn (List.length l1) (l1 ++ l2) = l1.
Proof. induction l1; simpl; [reflexivity | f_equal; auto]. Qed.

Lemma block_frame_length (b : ArrayBuffer * ArrayBuffer) :
  List.length (block_frame b) = (4 + List.length (fst b) + List.length (snd b))%nat.
Proof. unfold block_frame; rewrite !length_app; reflexivity. Qed.

Lemma frames_length (blocks : list (ArrayBuffer * ArrayBuffer)) :
  List.length (flat_map block_frame blocks) = Z.to_nat (sum_sizes blocks).
Proof.
  induction blocks as [|b rest IH].
  - reflexivity.
  - cbn [flat_map]. rewrite length_app, IH, block_frame_length, sum_sizes_cons.
    pose proof (sum_sizes_nonneg rest).
    unfold block_size, byteLength. lia.
Qed.

Lemma frame_at (study : ArrayBuffer) (pre post : list (ArrayBuffer * ArrayBuffer))
  (b : ArrayBuffer * ArrayBuffer) :
  firstn (List.length (block_frame b))
    (skipn (4 + List.length study + Z.to_nat (sum_sizes pre))
           (blob_layout study (pre ++ b :: post))) =
  block_frame b.
Proof.
  unfold blob_layout.
  rewrite flat_map_app; cbn [flat_map].
  replace (4 + List.length study + Z.to_nat (sum_sizes pre))%nat
    with (List.length (Uint32Array_buffer (byteLength study) ++ study ++
                       flat_map block_frame pre)).
  - rewrite !app_assoc.
    rewrite <- (app_assoc _ (block_frame b)).
    rewrite skipn_length_app.
    apply firstn_length_app.
  - rewrite !length_app, frames_length; reflexivity.
Qed.

Lemma encoded_blocks_nth (calls : list AddCall) :
  forall blocks i c,
    encoded_blocks calls = Some blocks ->
    nth_error calls i = Some c ->
    exists b, nth_error blocks i = Some b /\ encoded_block c = Some b.
Proof.
  induction calls as [|c0 rest IH]; intros blocks i c H N.
  - destruct i; discriminate.
  - simpl in H.
    destruct (encoded_block c0) as [b0|] eqn:E0; [|discriminate].
    destruct (encoded_blocks rest) as [bs|] eqn:Er; [|discriminate].
    inversion H; subst; clear H.
    destruct i as [|i]; simpl in N |- *.
    + inversion N; subst. exists b0; auto.
    + apply (IH bs i c eq_refl N).
Qed.

Lemma encoded_blocks_length (calls : list AddCall) :
  forall blocks, encoded_blocks calls = Some blocks ->
  List.length blocks = List.length calls.
Proof.
  induction calls as [|c0 rest IH]; intros blocks H; simpl in H.
  - inversion H; reflexivity.
  - destruct (encoded_block c0) as [b0|]; [|discriminate].
    destruct (encoded_blocks rest) as [bs|]; [|discriminate].
    inversion H; subst; simpl. rewrite (IH bs eq_refl); reflexivity.
Qed.

Lemma encoded_block_parts (c : AddCall) (sidecar raw : ArrayBuffer) :
  encoded_block c = Some (sidecar, raw) ->
  RawData (call_data c) = Some raw /\
  UnicodeJSON_encode
    (block_sidecar (EncodingDescriptor (call_data c) (call_originalType c) raw)
                   (call_metadata c)) = Some sidecar.
Proof.
  unfold encoded_block.
  destruct (RawData (call_data c)) as [r|]; [|discriminate].
  destruct (UnicodeJSON_encode _) as [s|] eqn:E; [|discriminate].
  intros H; inversion H; subst; auto.
Qed.

(** C1, as amended.  When [build] returns a blob for a sequence of blocks
    and a study metadata, the blob starts with the study sidecar, which
    serializes the offset table together with the study metadata, and for
    every block, in the order of the [addBlock] calls, the bytes at offset
    [4 + study length + blockStarts[i]] are the block's sidecar length, its
    sidecar (the serialization of its encoding descriptor, original type
    included, with its original metadata) and its raw data, byte for byte.
    The decoder itself rebuilds none of it: [blobToBlocks] returns
    [undefined] for every blob. *)
Theorem blob_carries_blocks (calls : list AddCall) (md : JsValue)
  (blob : Blob) (w : World) :
  build calls md fresh = (Normal (Some blob), w) ->
  exists blocks study,
    encoded_blocks calls = Some blocks /\
    UnicodeJSON_encode (study_sidecar (offsets_from 0 blocks) md) = Some study /\
    firstn (4 + List.length study) (blob_bytes blob) =
      Uint32Array_buffer (byteLength study) ++ study /\
    List.length (offsets_from 0 blocks) = List.length calls /\
    (forall i c, nth_error calls i = Some c ->
       exists sidecar raw off,
         let encoding := EncodingDescriptor (call_data c) (call_originalType c) raw in
         RawData (call_data c) = Some raw /\
         UnicodeJSON_encode (block_sidecar encoding (call_metadata c)) = Some sidecar /\
         get_prop encoding (js "originalType") = default_null (call_originalType c) /\
         nth_error (offsets_from 0 blocks) i = Some off /\
         firstn (4 + List.length sidecar + List.length raw)
           (skipn (4 + List.length study + Z.to_nat off) (blob_bytes blob)) =
         Uint32Array_buffer (byteLength sidecar) ++ sidecar ++ raw) /\
    (forall b, returned (blobToBlocks b) = JsUndefined).
Proof.
  intros H.
  destruct (build_inv calls md blob w H) as (blocks & study & Hb & Hs & B).
  subst blob; cbn [blob_bytes].
  exists blocks, study.
  split; [exact Hb|]. split; [exact Hs|].
  split.
  { unfold blob_layout. rewrite app_assoc.
    replace (4 + List.length study)%nat
      with (List.length (Uint32Array_buffer (byteLength study) ++ study))
      by (rewrite length_app; reflexivity).
    apply firstn_length_app. }
  split.
  { rewrite offsets_from_length. apply encoded_blocks_length; exact Hb. }
  split; [|exact blobToBlocks_returns_undefined].
  intros i c N.
  destruct (encoded_blocks_nth calls blocks i c Hb N) as ([sidecar raw] & Nb & Ec).
  destruct (encoded_block_parts c sidecar raw Ec) as (Hr & Hsc).
  destruct (nth_error_split blocks i Nb) as (pre & post & Hsplit & Hpre).
  exists sidecar, raw, (sum_sizes pre). cbv zeta.
  split; [exact Hr|]. split; [exact Hsc|].
  split.
  { unfold EncodingDescriptor.
    destruct (classification (call_data c)) as [[dt bpe] sg]; reflexivity. }
  split.
  { rewrite offsets_from_nth.
    - rewrite Hsplit, <- Hpre, firstn_length_app. reflexivity.
    - apply nth_error_Some; congruence. }
  rewrite Hsplit.
  pose proof (frame_at study pre post (sidecar, raw)) as F.
  rewrite block_frame_length in F. exact F.
Qed.

Lemma blob_carries_blocks_witness :
  exists sidecar raw,
    RawData (call_data image2D_call) = Some raw /\
    firstn (4 + List.length sidecar + List.length raw)
      (skipn (4 + 76 + 0) (blob_bytes image2D_blob)) =
    Uint32Array_buffer (byteLength sidecar) ++ sidecar ++ raw.
Proof.
  destruct (blob_carries_blocks [image2D_call] (JsObj []) image2D_blob
              (mkWorld (mkEncoder [Uint16Array_to_buffer image2D_sidecar_text]
                                  [f32_1_2_3] (JsObj [])) []))
    as (blocks & study & Hb & Hs & _ & _ & Hi & _).
  - vm_compute; reflexivity.
  - assert (Eb : blocks = [(Uint16Array_to_buffer image2D_sidecar_text, f32_1_2_3)]).
    { assert (E : Some blocks =
                  Some [(Uint16Array_to_buffer image2D_sidecar_text, f32_1_2_3)])
        by (rewrite <- Hb; vm_compute; reflexivity).
      inversion E; reflexivity. }
    subst blocks.
    assert (Es : study = Uint16Array_to_buffer image2D_study_text).
    { assert (E : Some study = Some (Uint16Array_to_buffer image2D_study_text))
        by (rewrite <- Hs; vm_compute; reflexivity).
      inversion E; reflexivity. }
    subst study.
    destruct (Hi 0%nat image2D_call eq_refl)
      as (sidecar & raw & off & Hr & _ & _ & Ho & Hf).
    exists sidecar, raw. split; [exact Hr|].
    cbn [offsets_from nth_error] in Ho. inversion Ho; subst off.
    exact Hf.
Defined.

(* ================================================================== *)
(** ** Further properties of the Unicode-JSON helpers *)

Lemma Z_of_byte_of_Z (z : Z) : Z_of_byte (byte_of_Z z) = z mod 256.
Proof.
  unfold Z_of_byte, byte_of_Z.
  pose proof (Z.mod_pos_bound z 256 ltac:(lia)) as B.
  destruct (Byte.of_N (Z.to_N (z mod 256))) as [b|] eqn:E.
  - rewrite (Byte.to_of_N _ E). lia.
  - apply Byte.of_N_None_iff in E. lia.
Qed.


Lemma Uint16Array_to_buffer_length (u : Uint16Array) :
  byteLength (Uint16Array_to_buffer u) = 2 * Z.of_nat (List.length u).
Proof.
  unfold byteLength, Uint16Array_to_buffer.
  induction u as [|c rest IH]; [reflexivity|].
  cbn [flat_map app List.length]. lia.
Qed.

(** X1. [_objectToUnicodeBuffer] never throws and never touches the encoder.
    It yields [null] exactly when [JSON.stringify] throws (the error is
    logged once) or returns [undefined]; otherwise it yields one 16-bit
    element per code unit of the JSON text, two bytes each: JSON text is
    never empty, so the empty-string test of [_stringToUnicodeBuffer] loses
    no value. *)
Theorem unicode_buffer_never_throws (obj : JsValue) (w : World) :
  exists r w',
    _objectToUnicodeBuffer obj w = (Normal r, w') /\
    this w' = this w /\
    match JSON_stringify obj with
    | Normal (Some text) =>
        r = Some (map ToUint16 text) /\ w' = w /\ text <> [] /\
        byteLength (Uint16Array_to_buffer (map ToUint16 text)) =
          2 * Z.of_nat (List.length text)
    | Normal None => r = None /\ w' = w
    | Throw e => r = None /\ console w' = console w ++ [warn_error e]
    end.
Proof.
  unfold _objectToUnicodeBuffer, _toJsonString, bind.
  destruct (JSON_stringify obj) as [[text|]|e] eqn:E.
  - pose proof (JSON_stringify_nonempty obj text E) as NE.
    exists (Some (map ToUint16 text)), w.
    split; [destruct text; [congruence | reflexivity]|].
    split; [reflexivity|].
    repeat split; try assumption.
    rewrite Uint16Array_to_buffer_length, length_map; reflexivity.
  - exists None, w; repeat split.
  - eexists None, _; repeat split.
Qed.




(* ================================================================== *)
(** ** Further properties of the blob and of the decoder *)

Lemma read_uint_le4 (b0 b1 b2 b3 : byte) :
  read_uint true [b0; b1; b2; b3] =
  Z_of_byte b0 + 256 * (Z_of_byte b1 + 256 * (Z_of_byte b2 + 256 * Z_of_byte b3)).
Proof. unfold read_uint; cbn [rev app fold_left]. lia. Qed.

Lemma read_uint_be4 (b1 b2 b3 b4 : byte) :
  read_uint false [b1; b2; b3; b4] =
  ((Z_of_byte b1 * 256 + Z_of_byte b2) * 256 + Z_of_byte b3) * 256 + Z_of_byte b4.
Proof. unfold read_uint; cbn [fold_left]. lia. Qed.

Lemma read_Uint32Array_buffer (n : Z) :
  read_uint true (Uint32Array_buffer n) = n mod 2 ^ 32.
Proof.
  unfold Uint32Array_buffer. cbv zeta.
  pose proof (Z.mod_pos_bound n (2 ^ 32) ltac:(lia)) as B.
  set (v := n mod 2 ^ 32) in *.
  rewrite read_uint_le4, !Z_of_byte_of_Z, !Z.shiftr_div_pow2 by lia.
  change (2 ^ 8) with 256; change (2 ^ 16) with (256 * 256);
    change (2 ^ 24) with (256 * 256 * 256).
  rewrite <- !Z.div_div by lia.
  set (q1 := v / 256). set (q2 := q1 / 256). set (q3 := q2 / 256).
  pose proof (Z.div_mod v 256 ltac:(lia)) as E0.
  pose proof (Z.div_mod q1 256 ltac:(lia)) as E1.
  pose proof (Z.div_mod q2 256 ltac:(lia)) as E2.
  assert (B3 : 0 <= q3 < 256).
  { unfold q3, q2, q1.
    rewrite !Z.div_div by lia.
    split; [apply Z.div_pos; lia | apply Z.div_lt_upper_bound; lia]. }
  rewrite (Z.mod_small q3) by exact B3.
  fold q1 in E0. fold q2 in E1. fold q3 in E2. lia.
Qed.

(** X3. The length field of a blob can be read back: the first four bytes of
    every blob [blocksToBlob] returns, taken in little-endian order, are
    the byte length of the study sidecar modulo 2^32, the length itself
    when it is below 2^32. *)
Theorem blob_length_header (w w' : World) (blob : Blob) :
  blocksToBlob w = (Normal (Some blob), w') ->
  exists study,
    study_payload (this w) = Some study /\
    read_uint true (firstn 4 (blob_bytes blob)) = byteLength study mod 2 ^ 32 /\
    (byteLength study < 2 ^ 32 ->
     read_uint true (firstn 4 (blob_bytes blob)) = byteLength study).
Proof.
  intros H.
  destruct (blocksToBlob_inv w w' blob H) as (_ & study & E & B).
  exists study. split; [exact E|].
  assert (R : read_uint true (firstn 4 (blob_bytes blob)) =
              byteLength study mod 2 ^ 32).
  { subst blob.
    change (firstn 4 (blob_bytes (mkBlob (blob_layout study (blocks_of (this w)))
                                         "application/octet-binary")))
      with (Uint32Array_buffer (byteLength study)).
    apply read_Uint32Array_buffer. }
  split; [exact R|].
  intros L. rewrite R. apply Z.mod_small.
  pose proof (byteLength_nonneg study); lia.
Qed.

Lemma blob_length_header_witness :
  read_uint true (firstn 4 (blob_bytes image2D_blob)) = 76.
Proof.
  destruct (blob_length_header
              (mkWorld (mkEncoder [Uint16Array_to_buffer image2D_sidecar_text]
                                  [f32_1_2_3] (JsObj [])) [])
              (mkWorld (mkEncoder [Uint16Array_to_buffer image2D_sidecar_text]
                                  [f32_1_2_3] (JsObj [])) [])
              image2D_blob)
    as (study & E & _ & L).
  - vm_compute; reflexivity.
  - assert (Es : study = Uint16Array_to_buffer image2D_study_text).
    { assert (E' : Some study = Some (Uint16Array_to_buffer image2D_study_text))
        by (rewrite <- E; vm_compute; reflexivity).
      inversion E'; reflexivity. }
    subst study. apply L. vm_compute; reflexivity.
Defined.

Lemma UnicodeJSON_encode_even (v : JsValue) (b : ArrayBuffer) :
  UnicodeJSON_encode v = Some b -> byteLength b mod 2 = 0.
Proof.
  unfold UnicodeJSON_encode.
  destruct (JSON_stringify v) as [[text|]|e]; try discriminate.
  intros H; inversion H; subst; clear H.
  unfold byteLength.
  replace (List.length (flat_map (fun c => [byte_of_Z (c mod 256);
                                            byte_of_Z (c / 256 mod 256)]) text))
    with (2 * List.length text)%nat.
  - rewrite Nat2Z.inj_mul, Z.mul_comm. apply Z_mod_mult.
  - induction text as [|c rest IH]; [reflexivity|].
    cbn [flat_map app List.length]. lia.
Qed.

Lemma UnicodeJSON_encode_object (props : list (JsString * JsValue)) (b : ArrayBuffer) :
  UnicodeJSON_encode (JsObj props) = Some b ->
  exists rest, b = x7b :: x00 :: rest.
Proof.
  unfold UnicodeJSON_encode. cbn [JSON_stringify].
  match goal with |- context [match ?g props with _ => _ end] =>
    destruct (g props) as [parts|e] end; [|discriminate].
  intros H; inversion H; subst; clear H.
  cbn [app flat_map]. eexists; reflexivity.
Qed.

(** X4. The decoder never finds the length the encoder wrote.  On every blob
    that [blocksToBlob] returns, the handler's [studySidecarLength] ends in
    the byte 123 (the low byte of the opening brace of the study sidecar,
    byte 4 of the blob), an odd number, while the study sidecar's length,
    stored in bytes 0 to 3, is even. *)
Theorem decoder_misreads_built_blobs (w w' : World) (blob : Blob) :
  blocksToBlob w = (Normal (Some blob), w') ->
  exists study n,
    study_payload (this w) = Some study /\
    onload_studySidecarLength (blob_bytes blob) = Normal n /\
    n mod 256 = 123 /\
    byteLength study mod 2 = 0 /\
    n <> byteLength study.
Proof.
  intros H.
  destruct (blocksToBlob_inv w w' blob H) as (_ & study & E & B).
  pose proof (UnicodeJSON_encode_even _ _ E) as Ev.
  destruct (UnicodeJSON_encode_object _ _ E) as (rest & Hs).
  subst blob.
  assert (L : exists b0 b1 b2 b3 tail,
             blob_bytes (mkBlob (blob_layout study (blocks_of (this w)))
                                "application/octet-binary") =
             b0 :: b1 :: b2 :: b3 :: x7b :: tail).
  { unfold blob_layout, Uint32Array_buffer. rewrite Hs.
    cbn [blob_bytes app]. do 5 eexists; reflexivity. }
  destruct L as (b0 & b1 & b2 & b3 & tail & L). rewrite L.
  exists study, (read_uint false [b1; b2; b3; x7b]).
  split; [exact E|].
  split; [apply onload_studySidecarLength_long|].
  assert (M : read_uint false [b1; b2; b3; x7b] mod 256 = 123).
  { rewrite read_uint_be4.
    change (Z_of_byte x7b) with 123.
    rewrite Z.add_comm, Z_mod_plus_full. reflexivity. }
  split; [exact M|]. split; [exact Ev|].
  intros Heq. rewrite Heq in M.
  pose proof (Z.div_mod (byteLength study) 256 ltac:(lia)) as D256.
  pose proof (Z.div_mod (byteLength study) 2 ltac:(lia)) as D2.
  rewrite M in D256. rewrite Ev in D2. lia.
Qed.

Lemma decoder_misreads_built_blobs_witness :
  exists n,
    onload_studySidecarLength (blob_bytes image2D_blob) = Normal n /\
    n mod 256 = 123.
Proof.
  destruct (decoder_misreads_built_blobs
              (mkWorld (mkEncoder [Uint16Array_to_buffer image2D_sidecar_text]
                                  [f32_1_2_3] (JsObj [])) [])
              (mkWorld (mkEncoder [Uint16Array_to_buffer image2D_sidecar_text]
                                  [f32_1_2_3] (JsObj [])) [])
              image2D_blob)
    as (study & n & _ & Hn & Hm & _).
  - vm_compute; reflexivity.
  - exists n; split; assumption.
Defined.

(** X5. A blob of fewer than five bytes, the empty blob included: the handler
    dies with a [RangeError], nothing is logged, and [blobToBlocks] has
    returned [undefined]. *)
Theorem decoder_rejects_short_blobs (blob : Blob) :
  (List.length (blob_bytes blob) < 5)%nat ->
  blobToBlocks blob = mkDecodeRun JsUndefined (Throw RangeError) [].
Proof.
  intros H. unfold blobToBlocks, onload.
  rewrite (onload_studySidecarLength_short _ H). reflexivity.
Qed.

Lemma decoder_rejects_short_blobs_witness :
  blobToBlocks (mkBlob [x4a; x00; x00; x00] "application/octet-binary") =
  mkDecodeRun JsUndefined (Throw RangeError) [].
Proof.
  apply decoder_rejects_short_blobs. simpl; lia.
Defined.




(* ================================================================== *)
(** ** Further properties of the encoder *)

(** X7. [blocksToBlob] only reads the encoder: whatever its outcome, the two
    lists and the study metadata are as before; and a call that returns a
    blob changes nothing at all, so that calling it again returns the same
    blob. *)
Theorem blocksToBlob_read_only (w : World) :
  this (snd (blocksToBlob w)) = this w /\
  (forall blob w', blocksToBlob w = (Normal (Some blob), w') ->
     w' = w /\ blocksToBlob w' = (Normal (Some blob), w')).
Proof.
  destruct (Nat.eq_dec (List.length (_sidecarBuffers (this w)))
                       (List.length (_dataBuffers (this w)))) as [L|L].
  - destruct (study_payload (this w)) as [study|] eqn:E.
    + rewrite (blocksToBlob_ok w study L E). split; [reflexivity|].
      intros blob w' H; inversion H; subst. split; [reflexivity|].
      apply (blocksToBlob_ok w' study L E).
    + destruct (blocksToBlob_fail w L E) as (w0 & Hw & Ht & _).
      rewrite Hw. split; [exact Ht | discriminate].
  - rewrite (blocksToBlob_mismatch w L). split; [reflexivity | discriminate].
Qed.

Lemma blocksToBlob_read_only_witness :
  blocksToBlob (snd (build [image2D_call] (JsObj []) fresh)) =
  (Normal (Some image2D_blob), snd (build [image2D_call] (JsObj []) fresh)).
Proof.
  apply (proj2 (blocksToBlob_read_only
                  (mkWorld (mkEncoder [Uint16Array_to_buffer image2D_sidecar_text]
                                      [f32_1_2_3] (JsObj [])) [])) image2D_blob).
  vm_compute; reflexivity.
Defined.

(** X8. The first loop of [blocksToBlob] ends with [bufferPosition] equal to
    the size of the blocks region: a blob is [4 +] the study sidecar's
    length [+ bufferPosition] bytes long. *)
Theorem bufferPosition_is_blocks_size (w w' : World) (blob : Blob) :
  blocksToBlob w = (Normal (Some blob), w') ->
  exists study blockStarts bufferPosition,
    study_payload (this w) = Some study /\
    blockStarts_loop (List.length (_dataBuffers (this w))) 0 (this w) [] 0 =
      Normal (blockStarts, bufferPosition) /\
    byteLength (blob_bytes blob) = 4 + byteLength study + bufferPosition.
Proof.
  intros H.
  destruct (blocksToBlob_inv w w' blob H) as (L & study & E & B).
  exists study, (offsets_from 0 (blocks_of (this w))), (sum_sizes (blocks_of (this w))).
  split; [exact E|]. split; [apply blockStarts_loop_all; exact L|].
  subst blob. unfold byteLength, blob_layout; cbn [blob_bytes].
  rewrite !length_app, frames_length.
  pose proof (sum_sizes_nonneg (blocks_of (this w))).
  unfold Uint32Array_buffer; cbn [List.length]. lia.
Qed.

Lemma bufferPosition_is_blocks_size_witness :
  exists study bufferPosition,
    blockStarts_loop 1 0
      (mkEncoder [Uint16Array_to_buffer image2D_sidecar_text] [f32_1_2_3] (JsObj []))
      [] 0 = Normal ([0], bufferPosition) /\
    byteLength (blob_bytes image2D_blob) = 4 + byteLength study + bufferPosition.
Proof.
  destruct (bufferPosition_is_blocks_size
              (mkWorld (mkEncoder [Uint16Array_to_buffer image2D_sidecar_text]
                                  [f32_1_2_3] (JsObj [])) [])
              (mkWorld (mkEncoder [Uint16Array_to_buffer image2D_sidecar_text]
                                  [f32_1_2_3] (JsObj [])) [])
              image2D_blob)
    as (study & bs & pos & _ & Hl & Hb).
  - vm_compute; reflexivity.
  - exists study, pos. split; [|exact Hb].
    cbn [this _dataBuffers List.length] in Hl.
    rewrite Hl. f_equal. f_equal.
    assert (E : Normal (bs, pos) =
                Normal (offsets_from 0
                          [(Uint16Array_to_buffer image2D_sidecar_text, f32_1_2_3)],
                        sum_sizes
                          [(Uint16Array_to_buffer image2D_sidecar_text, f32_1_2_3)]))
      by (rewrite <- Hl; apply (blockStarts_loop_all
            (mkEncoder [Uint16Array_to_buffer image2D_sidecar_text]
                       [f32_1_2_3] (JsObj [])) eq_refl)).
    inversion E; reflexivity.
Defined.




(* ------------------------------------------------------------------ *)
(** *** The study metadata *)

Lemma bind_setStudyMetadata {A} (md : JsValue) (k : M A) (w : World) :
  (setStudyMetadata md ;;; k) w =
  k (mkWorld (mkEncoder (_sidecarBuffers (this w)) (_dataBuffers (this w)) md)
             (console w)).
Proof. reflexivity. Qed.

Lemma bind_addBlocks_ok {A} (calls : list AddCall)
  (blocks : list (ArrayBuffer * ArrayBuffer)) (k : M A) (w : World) :
  encoded_blocks calls = Some blocks ->
  (addBlocks calls ;;; k) w =
  k (mkWorld (mkEncoder (_sidecarBuffers (this w) ++ map fst blocks)
                        (_dataBuffers (this w) ++ map snd blocks)
                        (_studyMetadata (this w)))
             (console w)).
Proof.
  intros H. unfold bind. rewrite (addBlocks_ok calls blocks w H). reflexivity.
Qed.

Lemma bind_addBlocks_fail {A} (calls : list AddCall) (k : M A) (w : World) :
  encoded_blocks calls = None ->
  fst ((addBlocks calls ;;; k) w) = Throw TypeError.
Proof.
  intros H. unfold bind.
  destruct (addBlocks_fail calls w H) as (w' & Hw). rewrite Hw. reflexivity.
Qed.

(** X10. [addBlock] never reads the study metadata and [setStudyMetadata] keeps
    nothing of the previous value: the outcome of [blocksToBlob] is the
    same whether the study metadata is set before or after the blocks are
    added, and whatever was set earlier. *)
Theorem study_metadata_last_write_wins (calls : list AddCall) (a b : JsValue) :
  fst ((setStudyMetadata a ;;; addBlocks calls ;;;
        setStudyMetadata b ;;; blocksToBlob) fresh) =
    fst (build calls b fresh) /\
  fst ((setStudyMetadata b ;;; addBlocks calls ;;; blocksToBlob) fresh) =
    fst (build calls b fresh).
Proof.
  unfold build.
  rewrite !bind_setStudyMetadata.
  destruct (encoded_blocks calls) as [blocks|] eqn:E.
  - rewrite !(bind_addBlocks_ok calls blocks) by exact E.
    rewrite !bind_setStudyMetadata. split; reflexivity.
  - rewrite !(bind_addBlocks_fail calls) by exact E. split; reflexivity.
Qed.

(* ------------------------------------------------------------------ *)
(** *** When the encoder throws *)

Lemma stringify_object_throws (props : list (JsString * JsValue)) :
  stringify_throws (JsObj props) <->
  Exists (fun p => stringify_throws (snd p)) props.
Proof.
  unfold stringify_throws.
  induction props as [|[k v] rest IH].
  - split; [intros [e H]; discriminate H | intros H; inversion H].
  - rewrite Exists_cons, <- IH. cbn [snd JSON_stringify].
    destruct (JSON_stringify v) as [o|e].
    + match goal with |- context [match ?g rest with _ => _ end] =>
        destruct (g rest) as [parts|e'] end.
      * split; [intros [e H]; discriminate H|].
        intros [[e H]|[e H]]; discriminate H.
      * split; [intros _; right; exists e'; reflexivity|].
        intros _; exists e'; reflexivity.
    + split; [intros _; left; exists e; reflexivity|].
      intros _; exists e; reflexivity.
Qed.

Lemma UnicodeJSON_encode_object_none (props : list (JsString * JsValue)) :
  UnicodeJSON_encode (JsObj props) = None <-> stringify_throws (JsObj props).
Proof.
  unfold UnicodeJSON_encode, stringify_throws. cbn [JSON_stringify].
  match goal with |- context [match ?g props with _ => _ end] =>
    destruct (g props) as [parts|e] end.
  - split; [discriminate | intros [e H]; discriminate H].
  - split; [intros _; exists e; reflexivity | reflexivity].
Qed.





Lemma default_null_throws (ot : JsValue) :
  stringify_throws (default_null ot) <-> stringify_throws ot.
Proof.
  destruct ot; try tauto.
  unfold stringify_throws; cbn.
  split; intros [e H]; discriminate H.
Qed.

Lemma classification_total (data : JsData) :
  let '(dt, bpe, sg) := classification data in
  ~ stringify_throws dt /\ ~ stringify_throws bpe /\ ~ stringify_throws sg.
Proof.
  destruct data as [[k buffer off len]|v]; [destruct k|];
    repeat split; intros [e H]; discriminate H.
Qed.

Lemma block_sidecar_none (data : JsData) (md ot : JsValue) (raw : ArrayBuffer) :
  UnicodeJSON_encode (block_sidecar (EncodingDescriptor data ot raw) md) = None <->
  stringify_throws md \/ stringify_throws ot.
Proof.
  unfold block_sidecar, EncodingDescriptor.
  pose proof (classification_total data) as C.
  destruct (classification data) as [[dt bpe] sg].
  destruct C as (Cdt & Cbpe & Csg).
  rewrite UnicodeJSON_encode_object_none, stringify_object_throws.
  rewrite !Exists_cons, Exists_nil. cbn [snd].
  rewrite stringify_object_throws.
  rewrite !Exists_cons, Exists_nil. cbn [snd].
  rewrite default_null_throws.
  assert (Cbl : ~ stringify_throws (JsInt (byteLength raw)))
    by (intros [e H]; discriminate H).
  tauto.
Qed.

(** X12. When [addBlock] throws.  A typed array is refused only if
    [JSON.stringify] throws on the metadata or on the original type; any
    other data is refused also when it has no JSON text ([JSON.stringify]
    throws or returns [undefined], as for [undefined] itself).  In every
    other case the block is added; an [undefined] metadata is accepted. *)
Theorem addBlock_throws_iff (data : JsData) (md ot : JsValue) (w : World) :
  let no_text :=
    match data with
    | DTyped _ => False
    | DValue v => forall text, JSON_stringify v <> Normal (Some text)
    end in
  (fst (addBlock data md ot w) = Throw TypeError <->
   no_text \/ stringify_throws md \/ stringify_throws ot) /\
  (fst (addBlock data md ot w) = Normal tt <->
   ~ (no_text \/ stringify_throws md \/ stringify_throws ot)).
Proof.
  cbv zeta.
  assert (K : encoded_block (mkCall data md ot) = None <->
              match data with
              | DTyped _ => False
              | DValue v => forall text, JSON_stringify v <> Normal (Some text)
              end \/ stringify_throws md \/ stringify_throws ot).
  { unfold encoded_block; cbn [call_data call_metadata call_originalType].
    destruct data as [arr|v]; cbn [RawData].
    - pose proof (block_sidecar_none (DTyped arr) md ot (ta_buffer arr)) as S.
      destruct (UnicodeJSON_encode _) as [sc|].
      + split; [discriminate|]. intros [F|T]; [contradiction|].
        apply S in T; discriminate T.
      + split; [intros _; right; apply S; reflexivity | reflexivity].
    - unfold UnicodeJSON_encode at 1.
      destruct (JSON_stringify v) as [[text|]|e] eqn:Ev.
      + match goal with |- context [block_sidecar (EncodingDescriptor _ _ ?r) _] =>
          pose proof (block_sidecar_none (DValue v) md ot r) as S end.
        destruct (UnicodeJSON_encode (block_sidecar _ _)) as [sc|].
        * split; [discriminate|]. intros [F|T].
          -- exfalso; apply (F text); reflexivity.
          -- apply S in T; discriminate T.
        * split; [intros _; right; apply S; reflexivity | reflexivity].
      + split; [intros _; left; intros text; discriminate | reflexivity].
      + split; [intros _; left; intros text; discriminate | reflexivity]. }
  pose proof (addBlock_outcome data md ot w) as O.
  destruct (encoded_block (mkCall data md ot)) as [[s d]|].
  - rewrite O; cbn [fst]. split.
    + split; [discriminate|]. intros H; apply K in H; discriminate H.
    + split; [|reflexivity]. intros _ H; apply K in H; discriminate H.
  - destruct O as (w' & Hw & _). rewrite Hw; cbn [fst]. split.
    + split; [intros _; apply K; reflexivity | reflexivity].
    + split; [discriminate|]. intros H; exfalso; apply H, K; reflexivity.
Qed.

Lemma addBlock_throws_iff_witness :
  fst (addBlock (DValue JsUndefined) JsNull JsNull fresh) = Throw TypeError /\
  fst (addBlock (DTyped (new_TypedArray Int8Array [])) JsUndefined JsUndefined fresh) =
    Normal tt.
Proof.
  split.
  - apply (proj1 (addBlock_throws_iff (DValue JsUndefined) JsNull JsNull fresh)).
    left. intros text; discriminate.
  - apply (proj2 (addBlock_throws_iff (DTyped (new_TypedArray Int8Array []))
                    JsUndefined JsUndefined fresh)).
    intros [F|[[e H]|[e H]]]; [exact F | discriminate H | discriminate H].
Defined.

(* ------------------------------------------------------------------ *)
(** *** The two [instanceof] chains, and the lists *)


Lemma run_op_appends (op : Op) (w : World) :
  exists ts td,
    _sidecarBuffers (this (snd (run_op op w))) = _sidecarBuffers (this w) ++ ts /\
    _dataBuffers (this (snd (run_op op w))) = _dataBuffers (this w) ++ td /\
    List.length ts = List.length td.
Proof.
  destruct op as [c|obj]; cbn [run_op].
  - pose proof (addBlock_outcome (call_data c) (call_metadata c)
                  (call_originalType c) w) as O.
    destruct (encoded_block _) as [[s d]|].
    + rewrite O. exists [s], [d]. repeat split.
    + destruct O as (w' & Hw & Ht). rewrite Hw; cbn [snd]. rewrite Ht.
      exists [], []. rewrite !app_nil_r. repeat split.
  - exists [], []. cbn. rewrite !app_nil_r. repeat split.
Qed.

(** X14. The encoder is append-only: whatever methods are called afterwards,
    in whatever order and whether they throw or not, the sidecars and data
    buffers an encoder holds stay where they are, unchanged, and what is
    added comes after them, as many sidecars as data buffers. *)
Theorem methods_append_only (ops : list Op) :
  forall w : World,
  exists ts td,
    _sidecarBuffers (this (snd (run_ops ops w))) = _sidecarBuffers (this w) ++ ts /\
    _dataBuffers (this (snd (run_ops ops w))) = _dataBuffers (this w) ++ td /\
    List.length ts = List.length td.
Proof.
  induction ops as [|op rest IH]; intros w.
  - exists [], []. cbn. rewrite !app_nil_r. repeat split.
  - cbn [run_ops]. unfold bind, try_op.
    destruct (run_op_appends op w) as (ts1 & td1 & Hs1 & Hd1 & L1).
    destruct (IH (snd (run_op op w))) as (ts2 & td2 & Hs2 & Hd2 & L2).
    exists (ts1 ++ ts2), (td1 ++ td2).
    rewrite Hs2, Hd2, Hs1, Hd1, <- !app_assoc, !length_app.
    repeat split. lia.
Qed.
